(** * Shopify Insights (app.py): a shallow embedding and its properties

    The storefront scraper of [src/app.py] is embedded as Rocq functions.
    Network access is a function from the request history to a reply, so
    that every scraper is a computation in a small state-and-exception
    monad; documents are the views that the selectors of the source take
    of a parsed page; decoded JSON is an inductive type with the dynamic
    checks of Python written out. *)

From Stdlib Require Import ZArith String Ascii PrimFloat Uint63 DecimalString.
From Stdlib Require Import Sorted OrdersEx.
From stdpp Require Import base option list strings gmap.

Set Warnings "-register-all,-clear-no-such-hyp".

Local Open Scope string_scope.
Local Open Scope Z_scope.
Local Open Scope list_scope.

(* ===================================================================== *)
(** ** Python strings *)
(* ===================================================================== *)

Module PyStr.

(** The ASCII characters that [str.strip] and [str.split] treat as
    white space. *)
Definition is_space (c : ascii) : bool :=
  let n := nat_of_ascii c in
  (Nat.eqb n 32 || (Nat.leb 9 n && Nat.leb n 13) || (Nat.leb 28 n && Nat.leb n 31))%bool.

Definition is_empty (s : string) : bool :=
  match s with EmptyString => true | String _ _ => false end.

Fixpoint lstrip (s : string) : string :=
  match s with
  | EmptyString => EmptyString
  | String c s' => if is_space c then lstrip s' else s
  end.

Fixpoint rstrip (s : string) : string :=
  match s with
  | EmptyString => EmptyString
  | String c s' =>
      let r := rstrip s' in
      if (is_space c && is_empty r)%bool then EmptyString else String c r
  end.

(** [s.strip()] *)
Definition strip (s : string) : string := rstrip (lstrip s).

(** [s.startswith(p)] *)
Definition startswith (p s : string) : bool := String.prefix p s.

(** [needle in s] *)
Fixpoint contains (needle s : string) {struct s} : bool :=
  (String.prefix needle s ||
   match s with
   | EmptyString => false
   | String _ s' => contains needle s'
   end)%bool.

(** [s.replace(old, new)] for a non-empty [old]: occurrences are replaced
    from left to right, without overlap.  [skip] counts the characters of
    the current occurrence still to be dropped. *)
Fixpoint replace_from (old new : string) (skip : nat) (s : string) : string :=
  match s with
  | EmptyString => EmptyString
  | String c s' =>
      match skip with
      | S k => replace_from old new k s'
      | O =>
          if String.prefix old s
          then new +:+ replace_from old new (Nat.pred (String.length old)) s'
          else String c (replace_from old new O s')
      end
  end.

Definition replace (old new s : string) : string := replace_from old new O s.

(** [s.split()]: the maximal runs of characters that are not white
    space; [word] is the run being read. *)
Fixpoint split_from (word : string) (s : string) : list string :=
  match s with
  | EmptyString => if is_empty word then [] else [word]
  | String c s' =>
      if is_space c
      then (if is_empty word then split_from EmptyString s'
            else word :: split_from EmptyString s')
      else split_from (word +:+ String c EmptyString) s'
  end.

Definition split (s : string) : list string := split_from EmptyString s.

(** [sep.join(l)] *)
Fixpoint join (sep : string) (l : list string) : string :=
  match l with
  | [] => EmptyString
  | [w] => w
  | w :: l' => w +:+ sep +:+ join sep l'
  end.

(** [s[:n]] *)
Definition take (n : nat) (s : string) : string := String.substring 0 n s.

(** [str(n)] for an integer *)
Definition of_Z (n : Z) : string := NilZero.string_of_int (Z.to_int n).

(** Truthiness of an optional string: [None] and [""] are falsy. *)
Definition truthy (o : option string) : bool :=
  match o with
  | Some s => negb (is_empty s)
  | None => false
  end.

(** [s.endswith(p)] *)
Fixpoint endswith (p s : string) {struct s} : bool :=
  (String.eqb p s ||
   match s with
   | EmptyString => false
   | String _ s' => endswith p s'
   end)%bool.

(** [s.lower()] on ASCII letters *)
Definition lower_char (c : ascii) : ascii :=
  let n := nat_of_ascii c in
  if (Nat.leb 65 n && Nat.leb n 90)%bool then ascii_of_nat (n + 32) else c.

Fixpoint lower (s : string) : string :=
  match s with
  | EmptyString => EmptyString
  | String c s' => String (lower_char c) (lower s')
  end.

(** [s.split(sep)[0]] for a one-character [sep] *)
Fixpoint before (sep : ascii) (s : string) : string :=
  match s with
  | EmptyString => EmptyString
  | String c s' => if Ascii.eqb c sep then EmptyString else String c (before sep s')
  end.

End PyStr.

(** [text_excerpt] (lines 112-114) *)
Definition text_excerpt (s : string) (n : nat) : string :=
  PyStr.take n (PyStr.join " " (PyStr.split s)).

(* ===================================================================== *)
(** ** Exceptions and outcomes *)
(* ===================================================================== *)

(** The exceptions the program distinguishes.  All three are subclasses of
    [Exception]; [RequestError] is [httpx.RequestError], [HTTPException]
    is FastAPI's, [PyError] stands for every other one; [msg] is the text
    [str(e)] gives. *)
Inductive exn :=
| RequestError (msg : string)
| PyError (msg : string)
| HTTPException (status_code : Z) (detail : string).

(** What a piece of the program that does no I/O gives: a value or a
    raised exception. *)
Inductive result (A : Type) :=
| Ok (a : A)
| Raise (e : exn).
Arguments Ok {A} a.
Arguments Raise {A} e.

#[global] Instance result_ret : MRet result := fun A a => Ok a.
#[global] Instance result_bind : MBind result := fun A B f m =>
  match m with
  | Ok a => f a
  | Raise e => Raise e
  end.

(* ===================================================================== *)
(** ** Decoded JSON *)
(* ===================================================================== *)

(** The value [r.json()] or [json.loads] returns.  An object is the list
    of its members in order; a key is looked up from the left. *)
Inductive json :=
| JNull
| JBool (b : bool)
| JInt (n : Z)
| JFloat (x : float)
| JStr (s : string)
| JArr (items : list json)
| JObj (members : list (string * json)).

Module Py.

(** [bool(v)] *)
Definition truthy (v : json) : bool :=
  match v with
  | JNull => false
  | JBool b => b
  | JInt n => negb (Z.eqb n 0)
  | JFloat x => negb (PrimFloat.eqb x 0%float)
  | JStr s => negb (PyStr.is_empty s)
  | JArr l => match l with [] => false | _ => true end
  | JObj m => match m with [] => false | _ => true end
  end.

Fixpoint assoc (k : string) (m : list (string * json)) : option json :=
  match m with
  | [] => None
  | (k', v) :: m' => if String.eqb k k' then Some v else assoc k m'
  end.

(** [v.get(k, d)]: only a dict has [get]. *)
Definition get_default (v : json) (k : string) (d : json) : result json :=
  match v with
  | JObj m => Ok (default d (assoc k m))
  | _ => Raise (PyError "AttributeError")
  end.

(** [v.get(k)] *)
Definition get (v : json) (k : string) : result json := get_default v k JNull.

Fixpoint chars (s : string) : list json :=
  match s with
  | EmptyString => []
  | String c s' => JStr (String c EmptyString) :: chars s'
  end.

(** [v[0]] *)
Definition first (v : json) : result json :=
  match v with
  | JArr (x :: _) => Ok x
  | JArr [] => Raise (PyError "IndexError")
  | JStr (String c _) => Ok (JStr (String c EmptyString))
  | JStr EmptyString => Raise (PyError "IndexError")
  | JObj _ => Raise (PyError "KeyError")
  | _ => Raise (PyError "TypeError")
  end.

(** The elements a [for] loop over [v] visits. *)
Definition iter (v : json) : result (list json) :=
  match v with
  | JArr l => Ok l
  | JStr s => Ok (chars s)
  | JObj m => Ok (map (fun kv => JStr (fst kv)) m)
  | _ => Raise (PyError "TypeError")
  end.

(** [(v or "").strip()]: only a string has [strip]. *)
Definition or_empty_strip (v : json) : result string :=
  if truthy v
  then match v with
       | JStr s => Ok (PyStr.strip s)
       | _ => Raise (PyError "AttributeError")
       end
  else Ok EmptyString.

Definition is_dict (v : json) : bool :=
  match v with JObj _ => true | _ => false end.

(** [v == s] for a string literal [s] *)
Definition eq_str (v : json) (s : string) : bool :=
  match v with JStr t => String.eqb t s | _ => false end.

(** [k in v] for a dict [v] *)
Definition has_key (k : string) (v : json) : bool :=
  match v with JObj m => bool_decide (is_Some (assoc k m)) | _ => false end.

End Py.

(* ===================================================================== *)
(** ** Parsed documents *)
(* ===================================================================== *)

(** An [a] element, as the scrapers look at it: the [href] and [title]
    attributes, [get_text(" ", strip=True)], and the [alt] attribute of the
    first [img] below it ([None] when there is no [img]). *)
Record Anchor := {
  a_href : option string;
  a_title : option string;
  a_text : string;
  a_img : option (option string)
}.

(** A [details] element: the text of its first [summary], if any, and its
    own [get_text(" ", strip=True)]. *)
Record Details := {
  d_summary : option string;
  d_text : string
}.

(** A [BeautifulSoup] document through the selectors of the source, each
    list in document order.  [ld_json] holds, for every
    [script[type="application/ld+json"]], what [json.loads] makes of its
    text ([None] when it raises). *)
Record Soup := {
  title_text : option string;
  og_site_name : option (option string);
  anchors : list Anchor;
  ld_json : list (option json);
  details : list Details;
  page_text : string
}.

(* ===================================================================== *)
(** ** Library functions and the network *)
(* ===================================================================== *)

(** Functions of the Python libraries that the program calls and that are
    not part of it.  [urlparse] gives scheme and netloc, and [None] where
    the library raises [ValueError]; [float_of_str] is [float] on a string
    ([None]: [ValueError]); [float_of_int] is [float] on an integer
    ([None]: [OverflowError]); [py_str] is the text an f-string gives a
    value that is not a string; the two [findall] are those of [EMAIL_RE]
    and [PHONE_RE]. *)
Record PyLib := {
  urljoin : string -> string -> string;
  urlparse : string -> option (string * string);
  quote_plus : string -> string;
  float_of_str : string -> option float;
  float_of_int : Z -> option float;
  py_str : json -> string;
  email_findall : string -> list string;
  phone_findall : string -> list string
}.

(** A reply with a status: the parsed text and the decoded JSON of its
    body ([None] when [r.json()] raises). *)
Record Response := {
  status_code : Z;
  html : Soup;
  json_body : option json
}.

Inductive Reply :=
| Replied (r : Response)
| NetworkFailure (msg : string)   (* httpx.RequestError *)
| OtherFailure (msg : string).    (* any other exception of client.get *)

(** The outside world: what a GET of a URL gives after the requests made
    so far, and the clock. *)
Record World := {
  respond : list string -> string -> Reply;
  utcnow_iso : list string -> string
}.

(** Computations that talk to the network: the state is the list of URLs
    requested so far.  [None] is a run that has used up the iterations it
    was allowed (only the [while True] of [scrape_catalog] can). *)
Definition M (A : Type) : Type := list string -> option (result A * list string).

#[global] Instance M_ret : MRet M := fun A a log => Some (Ok a, log).
#[global] Instance M_bind : MBind M := fun A B f m log =>
  match m log with
  | Some (Ok a, log') => f a log'
  | Some (Raise e, log') => Some (Raise e, log')
  | None => None
  end.

Definition lift {A} (r : result A) : M A := fun log => Some (r, log).
Definition raise {A} (e : exn) : M A := lift (Raise e).

(** [try: m  except Exception as e: h e] *)
Definition try_except {A} (m : M A) (h : exn -> M A) : M A := fun log =>
  match m log with
  | Some (Raise e, log') => h e log'
  | r => r
  end.

(* ===================================================================== *)
(** ** Schemas (lines 52-87) *)
(* ===================================================================== *)

Record Product := {
  product_title : string;
  product_url : option string;
  product_price : option float;
  product_image : option string
}.

Record Policy := {
  policy_type : string;
  policy_url : option string;
  policy_text_excerpt : option string
}.

Record FAQItem := {
  faq_question : string;
  faq_answer : string;
  faq_url : option string
}.

(** A value of the [contact] dict: a list of strings or a string. *)
Inductive ContactValue :=
| CList (l : list string)
| CStr (s : string).

Record BrandContext := {
  store_url : string;
  brand_name : option string;
  hero_products : list Product;
  catalog : list Product;
  policies : list Policy;
  faqs : list FAQItem;
  social : gmap string (option string);
  contact : gmap string (option ContactValue);
  about_text : option string;
  important_links : gmap string (option string);
  fetched_at : string
}.

Record CompetitorResult := {
  brand : BrandContext;
  competitors_of : list BrandContext
}.

(** [SOCIAL_MAP] (lines 93-103), in the order of the dict. *)
Definition SOCIAL_MAP : list (string * string) :=
  [ ("instagram.com", "instagram"); ("facebook.com", "facebook");
    ("x.com", "twitter"); ("twitter.com", "twitter");
    ("tiktok.com", "tiktok"); ("youtube.com", "youtube");
    ("youtu.be", "youtube"); ("pinterest.com", "pinterest");
    ("linkedin.com", "linkedin") ].

(** [sorted(set(l))]: the elements of [l], each once, in the order of
    their code points. *)
Fixpoint insert_sorted (x : string) (l : list string) : list string :=
  match l with
  | [] => [x]
  | y :: l' =>
      match String_as_OT.compare x y with
      | Lt => x :: l
      | Eq => l
      | Gt => y :: insert_sorted x l'
      end
  end.

Definition sorted_set (l : list string) : list string :=
  fold_right insert_sorted [] l.

(** [l or None] *)
Definition or_None {A} (l : list A) : option (list A) :=
  match l with [] => None | _ => Some l end.

(** [l[:n]] for a Python integer [n] *)
Definition slice_to {A} (l : list A) (n : Z) : list A :=
  if Z.leb 0 n then take (Z.to_nat n) l
  else take (Z.to_nat (Z.of_nat (length l) + n)) l.

(* ===================================================================== *)
(** ** The scrapers *)
(* ===================================================================== *)

Section Scrapers.

Context (lib : PyLib) (world : World).

(** [client.get(url, ...)]: one request, appended to the history. *)
Definition client_get (url : string) : M Response := fun log =>
  Some (match respond world log url with
        | Replied r => Ok r
        | NetworkFailure msg => Raise (RequestError msg)
        | OtherFailure msg => Raise (PyError msg)
        end, log ++ [url]).

(** [absolutize] (lines 125-126) *)
Definition absolutize (base : string) (href : option string) : option string :=
  match href with
  | Some h => if PyStr.is_empty h then None else Some (urljoin lib base h)
  | None => None
  end.

(** [urlparse(url).netloc] *)
Definition netloc (url : string) : result string :=
  match urlparse lib url with
  | Some (_, host) => Ok host
  | None => Raise (PyError "ValueError")
  end.

(** [normalize_root] (lines 129-132) *)
Definition normalize_root (url : string) : result string :=
  match urlparse lib url with
  | Some (scheme, host) => Ok (scheme +:+ "://" +:+ host +:+ "/")
  | None => Raise (PyError "ValueError")
  end.

(** [classify_social] (lines 117-122) *)
Definition classify_social (href : string) : result (option string) :=
  host ← netloc href;
  Ok (snd <$> find (fun dk => PyStr.contains (fst dk) (PyStr.lower host)) SOCIAL_MAP).

(** [fetch_html] (lines 135-142): only [httpx.RequestError] is caught. *)
Definition fetch_html (base path : string) : M (option Soup) :=
  try_except
    (r ← client_get (urljoin lib base path);
     if Z.eqb (status_code r) 200 then mret (Some (html r)) else mret None)
    (fun e => match e with
              | RequestError _ => mret None
              | _ => raise e
              end).

(** [fetch_json_ok] (lines 145-152) *)
Definition fetch_json_ok (url : string) : M (option json) :=
  try_except
    (r ← client_get url;
     if Z.eqb (status_code r) 200
     then match json_body r with
          | Some v => mret (Some v)
          | None => raise (PyError "JSONDecodeError")
          end
     else mret None)
    (fun _ => mret None).

(** [scrape_brand_name] (lines 158-164) *)
Definition scrape_brand_name (soup : option Soup) : option string :=
  match soup with
  | None => None
  | Some doc =>
      if PyStr.truthy (title_text doc)
      then Some (PyStr.strip (PyStr.before "|" (PyStr.strip (default "" (title_text doc)))))
      else
        match og_site_name doc with
        | Some content =>
            if PyStr.truthy content then Some (PyStr.strip (default "" content)) else None
        | None => None
        end
  end.

(** *** Hero products (lines 167-185) *)

(** The anchors [soup.select('a[href*="/products/"]')] keeps. *)
Definition is_product_anchor (a : Anchor) : bool :=
  match a_href a with
  | Some h => PyStr.contains "/products/" h
  | None => false
  end.

(** [x or y or ""] on an optional attribute and a text *)
Definition attr_or_text (attr : option string) (text : string) : string :=
  if PyStr.truthy attr then default "" attr else text.

(** Lines 175-179: the title of an anchor, [""] when it has none. *)
Definition hero_title (a : Anchor) : string :=
  let title := PyStr.strip (attr_or_text (a_title a) (a_text a)) in
  if PyStr.is_empty title
  then match a_img a with
       | Some alt => if PyStr.truthy alt then PyStr.strip (default "" alt) else title
       | None => title
       end
  else title.

Definition hero_product (title href : string) : Product :=
  {| product_title := title; product_url := Some href;
     product_price := None; product_image := None |}.

(** The [for] loop of lines 171-184, with its [continue] and [break]. *)
Fixpoint hero_loop (base : string) (l : list Anchor)
         (seen : gset string) (out : list Product) : list Product :=
  match l with
  | [] => out
  | a :: rest =>
      match absolutize base (a_href a) with
      | None => hero_loop base rest seen out
      | Some href =>
          if (PyStr.is_empty href || bool_decide (href ∈ seen))%bool
          then hero_loop base rest seen out
          else
            let title := hero_title a in
            let '(out', seen') :=
              if PyStr.is_empty title then (out, seen)
              else (out ++ [hero_product title href], {[href]} ∪ seen) in
            if Z.leb 8 (Z.of_nat (length out')) then out'
            else hero_loop base rest seen' out'
      end
  end.

Definition scrape_hero_products (base : string) (soup : option Soup) : list Product :=
  match soup with
  | None => []
  | Some doc => hero_loop base (filter (fun a => is_product_anchor a = true) (anchors doc)) ∅ []
  end.

(** *** Catalog (lines 188-218) *)

Definition page_url (base : string) (page : Z) : string :=
  urljoin lib base ("/products.json?limit=250&page=" +:+ PyStr.of_Z page).

(** The text an f-string puts for a value. *)
Definition format_value (v : json) : string :=
  match v with
  | JStr s => s
  | _ => py_str lib v
  end.

(** [float(v)] under the [except ValueError: pass] of lines 210-213: a
    string that does not parse leaves the price absent; any other
    failure is not a [ValueError] and leaves the handler. *)
Definition price_of (v : json) : result (option float) :=
  match v with
  | JStr s => Ok (float_of_str lib s)
  | JInt n =>
      match float_of_int lib n with
      | Some x => Ok (Some x)
      | None => Raise (PyError "OverflowError")
      end
  | JBool b =>
      match float_of_int lib (if b then 1 else 0) with
      | Some x => Ok (Some x)
      | None => Raise (PyError "OverflowError")
      end
  | JFloat x => Ok (Some x)
  | _ => Raise (PyError "TypeError")
  end.

(** Lines 206-213 *)
Definition item_price (it : json) : result (option float) :=
  variants ← Py.get it "variants";
  if Py.truthy variants then
    v0 ← Py.first variants;
    p ← Py.get v0 "price";
    if Py.truthy p then price_of p else Ok None
  else Ok None.

(** Lines 203-205 *)
Definition item_image (base : string) (it : json) : result (option string) :=
  img ← Py.get it "image";
  if Py.truthy img then
    src ← Py.get img "src";
    if Py.truthy src then
      match src with
      | JStr s => Ok (absolutize base (Some s))
      | _ => Raise (PyError "TypeError")
      end
    else Ok None
  else Ok None.

(** The body of the [for it in items] loop (lines 201-214). *)
Definition catalog_item (base : string) (it : json) : result Product :=
  handle ← Py.get it "handle";
  let url := if Py.truthy handle
             then absolutize base (Some ("/products/" +:+ format_value handle))
             else None in
  image ← item_image base it;
  price ← item_price it;
  t ← Py.get it "title";
  title ← Py.or_empty_strip t;
  Ok {| product_title := title; product_url := url;
        product_price := price; product_image := image |}.

(** The [for] loop: every item appends to [products]; an exception
    ends it with what was appended before. *)
Fixpoint catalog_items (base : string) (items : list json)
         (products : list Product) : list Product * option exn :=
  match items with
  | [] => (products, None)
  | it :: rest =>
      match catalog_item base it with
      | Ok p => catalog_items base rest (products ++ [p])
      | Raise e => (products, Some e)
      end
  end.

(** One turn of [while True]: ask for [page], then go on with the longer
    list or leave the loop. *)
Inductive loop_step :=
| Continue (products : list Product)
| Break (products : list Product).

Definition catalog_page (base : string) (page : Z) (products : list Product)
  : M loop_step :=
  try_except
    (r ← client_get (page_url base page);
     if negb (Z.eqb (status_code r) 200) then mret (Break products)
     else
       data ← lift (match json_body r with
                    | Some v => Ok v
                    | None => Raise (PyError "JSONDecodeError")
                    end);
       items ← lift (Py.get_default data "products" (JArr []));
       if negb (Py.truthy items) then mret (Break products)
       else
         its ← lift (Py.iter items);
         match catalog_items base its products with
         | (products', None) => mret (Continue products')
         | (products', Some _) => mret (Break products')
         end)
    (fun _ => mret (Break products)).

Fixpoint catalog_loop (fuel : nat) (base : string) (page : Z)
         (products : list Product) : M (list Product) :=
  match fuel with
  | O => fun _ => None
  | S fuel' =>
      step ← catalog_page base page products;
      match step with
      | Break products' => mret products'
      | Continue products' => catalog_loop fuel' base (page + 1) products'
      end
  end.

Definition scrape_catalog (fuel : nat) (base : string) : M (list Product) :=
  catalog_loop fuel base 1 [].

(** *** Policies (lines 221-235) *)

Definition POLICY_PATHS : list (string * string) :=
  [ ("privacy", "/policies/privacy-policy");
    ("refund", "/policies/refund-policy");
    ("return", "/policies/return-policy");
    ("shipping", "/policies/shipping-policy");
    ("terms", "/policies/terms-of-service") ].

Fixpoint policies_loop (base : string) (paths : list (string * string))
         (out : list Policy) : M (list Policy) :=
  match paths with
  | [] => mret out
  | (ptype, path) :: rest =>
      soup ← fetch_html base path;
      match soup with
      | Some doc =>
          policies_loop base rest
            (out ++ [ {| policy_type := ptype;
                         policy_url := Some (urljoin lib base path);
                         policy_text_excerpt := Some (text_excerpt (page_text doc) 800) |} ])
      | None => policies_loop base rest out
      end
  end.

Definition scrape_policies (base : string) : M (list Policy) :=
  policies_loop base POLICY_PATHS [].

(** *** FAQs (lines 238-268) *)

Definition FAQ_PATHS : list string :=
  [ "/pages/faq"; "/pages/faqs"; "/pages/help"; "/pages/support" ].

Definition faq_item (q a url : string) : FAQItem :=
  {| faq_question := q; faq_answer := a; faq_url := Some url |}.

(** Lines 250-256: one entry of [mainEntity]; [None] when the question
    or the answer is empty. *)
Definition faq_entity (url : string) (ent : json) : result (option FAQItem) :=
  name ← Py.get ent "name";
  q ← Py.or_empty_strip name;
  answer ← Py.get ent "acceptedAnswer";
  let aa := if Py.truthy answer then answer else JObj [] in
  a ← (if Py.is_dict aa
       then text ← Py.get aa "text"; Py.or_empty_strip text
       else Ok EmptyString);
  Ok (if (negb (PyStr.is_empty q) && negb (PyStr.is_empty a))%bool
      then Some (faq_item q a url) else None).

(** The loop over [mainEntity]; an exception leaves it, and the
    [except Exception: pass] of line 257 keeps what was appended. *)
Fixpoint faq_entities (url : string) (ents : list json)
         (faqs : list FAQItem) : list FAQItem :=
  match ents with
  | [] => faqs
  | ent :: rest =>
      match faq_entity url ent with
      | Ok (Some item) => faq_entities url rest (faqs ++ [item])
      | Ok None => faq_entities url rest faqs
      | Raise _ => faqs
      end
  end.

(** Lines 246-258 for one script. *)
Definition ld_json_faqs (url : string) (faqs : list FAQItem)
           (script : option json) : list FAQItem :=
  match script with
  | None => faqs
  | Some data =>
      if Py.is_dict data then
        match Py.get data "@type" with
        | Ok ty =>
            if Py.eq_str ty "FAQPage" then
              match Py.get_default data "mainEntity" (JArr []) ≫= Py.iter with
              | Ok ents => faq_entities url ents faqs
              | Raise _ => faqs
              end
            else faqs
        | Raise _ => faqs
        end
      else faqs
  end.

(** Lines 260-265 for one [details] element. *)
Definition details_faq (url : string) (faqs : list FAQItem)
           (det : Details) : list FAQItem :=
  let q := PyStr.strip (default EmptyString (d_summary det)) in
  let a := d_text det in
  if (negb (PyStr.is_empty q) && negb (PyStr.is_empty a))%bool
  then faqs ++ [faq_item q a url] else faqs.

(** What lines 243-265 collect from one page: first the JSON-LD
    entries of every script, then the [details] elements. *)
Definition page_faqs (url : string) (doc : Soup) : list FAQItem :=
  fold_left (details_faq url) (details doc)
    (fold_left (ld_json_faqs url) (ld_json doc) []).

Fixpoint faqs_loop (base : string) (paths : list string) : M (list FAQItem) :=
  match paths with
  | [] => mret []
  | path :: rest =>
      soup ← fetch_html base path;
      match soup with
      | None => faqs_loop base rest
      | Some doc =>
          match page_faqs (urljoin lib base path) doc with
          | [] => faqs_loop base rest
          | faqs => mret faqs
          end
      end
  end.

Definition scrape_faqs (base : string) : M (list FAQItem) :=
  faqs_loop base FAQ_PATHS.

(** *** Social links (lines 271-279) *)

Fixpoint social_loop (hrefs : list string) (out : gmap string (option string))
  : result (gmap string (option string)) :=
  match hrefs with
  | [] => Ok out
  | href :: rest =>
      key ← classify_social href;
      match key with
      | Some k =>
          if bool_decide (is_Some (out !! k)) then social_loop rest out
          else social_loop rest (<[k := Some href]> out)
      | None => social_loop rest out
      end
  end.

Definition scrape_social (soup : option Soup) : result (gmap string (option string)) :=
  match soup with
  | None => Ok ∅
  | Some doc => social_loop (omap a_href (anchors doc)) ∅
  end.

(** *** Contact (lines 282-303) *)

Definition CONTACT_PATHS : list string :=
  [ "/pages/contact"; "/pages/contact-us"; "/contact" ].

(** The loop of lines 291-296, for one of the two prefixes. *)
Definition scheme_targets (prefix : string) (doc : Soup) : list string :=
  omap (fun a =>
          match a_href a with
          | Some href =>
              if PyStr.startswith prefix href
              then Some (PyStr.strip (PyStr.replace prefix "" href))
              else None
          | None => None
          end) (anchors doc).

Definition page_emails (doc : Soup) : list string :=
  email_findall lib (page_text doc) ++ scheme_targets "mailto:" doc.

Definition page_phones (doc : Soup) : list string :=
  phone_findall lib (page_text doc) ++ scheme_targets "tel:" doc.

(** The loop of lines 284-298: the values of [emails], [phones] and
    [page_url] when it ends. *)
Fixpoint contact_loop (base : string) (paths : list string)
  : M (list string * list string * option string) :=
  match paths with
  | [] => mret ([], [], None)
  | path :: rest =>
      soup ← fetch_html base path;
      match soup with
      | None => contact_loop base rest
      | Some doc =>
          mret (page_emails doc, page_phones doc, Some (urljoin lib base path))
      end
  end.

Definition contact_dict (emails phones : list string) (page : option string)
  : gmap string (option ContactValue) :=
  <["emails" := CList <$> or_None (sorted_set emails)]>
    (<["phones" := CList <$> or_None (sorted_set phones)]>
       (<["contact_page" := CStr <$> page]> ∅)).

Definition scrape_contact (base : string) : M (gmap string (option ContactValue)) :=
  '(emails, phones, page) ← contact_loop base CONTACT_PATHS;
  mret (contact_dict emails phones page).

(** *** About (lines 306-311) *)

Definition ABOUT_PATHS : list string :=
  [ "/pages/about"; "/pages/our-story"; "/pages/about-us" ].

Fixpoint about_loop (base : string) (paths : list string) : M (option string) :=
  match paths with
  | [] => mret None
  | path :: rest =>
      soup ← fetch_html base path;
      match soup with
      | Some doc => mret (Some (text_excerpt (page_text doc) 1200))
      | None => about_loop base rest
      end
  end.

Definition scrape_about (base : string) : M (option string) :=
  about_loop base ABOUT_PATHS.

(** *** Important links (lines 314-327) *)

Definition LINK_PATHS : list (string * string) :=
  [ ("/pages/track", "order_tracking");
    ("/pages/track-order", "order_tracking");
    ("/pages/order-tracking", "order_tracking");
    ("/pages/contact", "contact_us");
    ("/blogs/news", "blogs");
    ("/blogs", "blogs") ].

Definition no_links : gmap string (option string) :=
  <["order_tracking" := None]> (<["contact_us" := None]> (<["blogs" := None]> ∅)).

Fixpoint links_loop (base : string) (paths : list (string * string))
         (out : gmap string (option string)) : M (gmap string (option string)) :=
  match paths with
  | [] => mret out
  | (path, key) :: rest =>
      soup ← fetch_html base path;
      match soup with
      | Some _ => links_loop base rest (<[key := Some (urljoin lib base path)]> out)
      | None => links_loop base rest out
      end
  end.

Definition scrape_important_links (base : string) : M (gmap string (option string)) :=
  links_loop base LINK_PATHS no_links.

(** *** The aggregator (lines 333-358) *)

(** [datetime.utcnow().isoformat() + "Z"] *)
Definition now_stamp : M string := fun log =>
  Some (Ok (utcnow_iso world log +:+ "Z"), log).

Definition get_brand_context (fuel : nat) (website_url : string) : M BrandContext :=
  let base := if PyStr.endswith "/" website_url then website_url
              else website_url +:+ "/" in
  home ← fetch_html base "/";
  let brand_name := scrape_brand_name home in
  let hero_products := scrape_hero_products base home in
  catalog ← scrape_catalog fuel base;
  policies ← scrape_policies base;
  faqs ← scrape_faqs base;
  social ← lift (scrape_social home);
  contact ← scrape_contact base;
  about_text ← scrape_about base;
  important_links ← scrape_important_links base;
  fetched_at ← now_stamp;
  mret {| store_url := base; brand_name := brand_name;
          hero_products := hero_products; catalog := catalog;
          policies := policies; faqs := faqs; social := social;
          contact := contact; about_text := about_text;
          important_links := important_links; fetched_at := fetched_at |}.

(** *** Competitor finder (lines 364-433) *)

Definition looks_like_shopify (url : string) : M bool :=
  root ← lift (normalize_root url);
  data ← fetch_json_ok (urljoin lib root "/products.json?limit=1");
  mret (match data with
        | Some v => (Py.is_dict v && Py.has_key "products" v)%bool
        | None => false
        end).

(** Lines 380-392 *)
Definition search_queries (brand_name : option string) (self_host : string)
  : list string :=
  if PyStr.truthy brand_name then
    let b := default EmptyString brand_name in
    [ b +:+ " shopify"; b +:+ " competitors shopify";
      b +:+ " similar brands shopify" ]
  else
    let host_without_www := PyStr.replace "www." "" self_host in
    [ host_without_www +:+ " competitors shopify";
      host_without_www +:+ " similar brands shopify" ].

Definition search_url (q : string) : string :=
  "https://duckduckgo.com/html/?q=" +:+ quote_plus lib q.

(** The loop over the anchors of one result page (lines 405-419).  It
    ends at the last anchor, at the [break] of line 419, or at an
    exception, which line 420 catches; [candidates] and [seen_hosts] keep
    what was added until then. *)
Fixpoint page_candidates (self_host : string) (limit : Z) (hrefs : list string)
         (candidates : list string) (seen_hosts : gset string)
  : list string * gset string :=
  match hrefs with
  | [] => (candidates, seen_hosts)
  | href :: rest =>
      if negb (PyStr.startswith "http" href)
      then page_candidates self_host limit rest candidates seen_hosts
      else
        match netloc href with
        | Raise _ => (candidates, seen_hosts)
        | Ok host =>
            if (PyStr.is_empty host || String.eqb host self_host)%bool
            then page_candidates self_host limit rest candidates seen_hosts
            else
              match root_cand ← normalize_root href;
                    h ← netloc root_cand;
                    Ok (root_cand, h) with
              | Raise _ => (candidates, seen_hosts)
              | Ok (root_cand, h) =>
                  if bool_decide (h ∈ seen_hosts)
                  then page_candidates self_host limit rest candidates seen_hosts
                  else
                    let seen_hosts' := {[h]} ∪ seen_hosts in
                    let candidates' := candidates ++ [root_cand] in
                    if Z.leb (limit * 4) (Z.of_nat (length candidates'))
                    then (candidates', seen_hosts')
                    else page_candidates self_host limit rest candidates' seen_hosts'
              end
        end
  end.

(** The loop over the queries (lines 398-421). *)
Fixpoint query_loop (self_host : string) (limit : Z) (queries : list string)
         (candidates : list string) (seen_hosts : gset string)
  : M (list string) :=
  match queries with
  | [] => mret candidates
  | q :: rest =>
      '(candidates', seen_hosts') ←
        try_except
          (r ← client_get (search_url q);
           if negb (Z.eqb (status_code r) 200) then mret (candidates, seen_hosts)
           else mret (page_candidates self_host limit
                        (omap a_href (anchors (html r))) candidates seen_hosts))
          (fun _ => mret (candidates, seen_hosts));
      query_loop self_host limit rest candidates' seen_hosts'
  end.

(** Lines 377-421: the value of [candidates] when the loop over the
    queries has ended. *)
Definition competitor_candidates (website_url : string)
           (brand_name : option string) (limit : Z) : M (list string) :=
  root ← lift (normalize_root website_url);
  self_host ← lift (netloc root);
  query_loop self_host limit (search_queries brand_name self_host) [] ∅.

(** Lines 423-431 *)
Fixpoint filter_loop (limit : Z) (candidates filtered : list string)
  : M (list string) :=
  match candidates with
  | [] => mret filtered
  | cand :: rest =>
      if Z.leb limit (Z.of_nat (length filtered)) then mret filtered
      else
        shopify ← try_except (looks_like_shopify cand) (fun _ => mret false);
        filter_loop limit rest (if shopify : bool then filtered ++ [cand] else filtered)
  end.

Definition find_competitor_candidates (website_url : string)
           (brand_name : option string) (limit : Z) : M (list string) :=
  candidates ← competitor_candidates website_url brand_name limit;
  filtered ← filter_loop limit candidates [];
  mret (slice_to filtered limit).

(** *** Request handlers (lines 537-583) *)

(** [not ctx.catalog and not ctx.hero_products] *)
Definition not_a_storefront (ctx : BrandContext) : bool :=
  match catalog ctx, hero_products ctx with
  | [], [] => true
  | _, _ => false
  end.

Definition exn_text (e : exn) : string :=
  match e with
  | RequestError msg | PyError msg => msg
  | HTTPException _ detail => detail
  end.

Definition NOT_FOUND : exn :=
  HTTPException 401 "Website not found or not a typical Shopify storefront.".

(** The two [except] clauses every handler ends with. *)
Definition handler_except {A} (e : exn) : M A :=
  match e with
  | HTTPException _ _ => raise e
  | _ => raise (HTTPException 500 ("Internal error: " +:+ exn_text e))
  end.

Definition insights (fuel : nat) (website_url : string) : M BrandContext :=
  try_except
    (ctx ← get_brand_context fuel website_url;
     if not_a_storefront ctx then raise NOT_FOUND else mret ctx)
    handler_except.

(** Lines 568-575 *)
Fixpoint competitor_loop (fuel : nat) (urls : list string)
         (contexts : list BrandContext) : M (list BrandContext) :=
  match urls with
  | [] => mret contexts
  | cu :: rest =>
      got ← try_except (cctx ← get_brand_context fuel cu; mret (Some cctx))
                       (fun _ => mret None);
      competitor_loop fuel rest
        (match got with
         | Some cctx =>
             if not_a_storefront cctx then contexts else contexts ++ [cctx]
         | None => contexts
         end)
  end.

Definition competitors (fuel : nat) (website_url : string) (limit : Z)
  : M CompetitorResult :=
  try_except
    (brand_ctx ← get_brand_context fuel website_url;
     if not_a_storefront brand_ctx then raise NOT_FOUND
     else
       competitor_urls ← find_competitor_candidates (store_url brand_ctx)
                           (brand_name brand_ctx) limit;
       competitor_contexts ← competitor_loop fuel competitor_urls [];
       mret {| brand := brand_ctx; competitors_of := competitor_contexts |})
    handler_except.

End Scrapers.

(** The status of the HTTP reply a handler's run stands for: 200 when it
    returns, the status of the [HTTPException] it raises. *)
Definition http_status {A} (r : result A) : Z :=
  match r with
  | Ok _ => 200
  | Raise (HTTPException code _) => code
  | Raise _ => 500
  end.

(* ===================================================================== *)
(** ** A small library and small worlds, to run the scrapers on *)
(* ===================================================================== *)

Module Sample.

(** Scheme and netloc of [scheme://netloc/...]. *)
Fixpoint until_any (stops : list ascii) (s : string) : string :=
  match s with
  | EmptyString => EmptyString
  | String c s' =>
      if bool_decide (c ∈ stops) then EmptyString else String c (until_any stops s')
  end.

Fixpoint after_scheme (s : string) : option string :=
  match s with
  | EmptyString => None
  | String c s' =>
      if String.prefix "://" s then Some (String.substring 3 (String.length s) s)
      else after_scheme s'
  end.

Definition parse_url (url : string) : option (string * string) :=
  match after_scheme url with
  | Some rest =>
      Some (until_any [":"%char] url, until_any ["/"%char; "?"%char; "#"%char] rest)
  | None => Some (EmptyString, EmptyString)
  end.

(** Joining a root URL and a path that starts at the root. *)
Definition join_url (base path : string) : string :=
  if String.prefix "http" path then path
  else if (PyStr.endswith "/" base && String.prefix "/" path)%bool
       then base +:+ String.substring 1 (String.length path) path
       else base +:+ path.

Definition float_of_Z (n : Z) : float :=
  if Z.ltb n 0 then PrimFloat.opp (PrimFloat.of_uint63 (Uint63.of_Z (- n)))
  else PrimFloat.of_uint63 (Uint63.of_Z n).

Definition int_to_float (n : Z) : option float :=
  if Z.ltb (Z.abs n) (2 ^ 53) then Some (float_of_Z n) else None.

Definition digit (c : ascii) : option Z :=
  let n := nat_of_ascii c in
  if (Nat.leb 48 n && Nat.leb n 57)%bool then Some (Z.of_nat (n - 48)) else None.

(** Digits with at most one point: mantissa and number of decimals. *)
Fixpoint decimal (s : string) (mant : Z) (decimals : option nat) (any : bool)
  : option (Z * nat) :=
  match s with
  | EmptyString => if any then Some (mant, default O decimals) else None
  | String c s' =>
      match digit c with
      | Some d => decimal s' (10 * mant + d) (S <$> decimals) true
      | None =>
          if (Ascii.eqb c "." && bool_decide (decimals = None))%bool
          then decimal s' mant (Some O) any
          else None
      end
  end.

Definition parse_float (s : string) : option float :=
  match decimal s 0 None false with
  | Some (mant, k) =>
      if Z.ltb mant (2 ^ 53)
      then Some (PrimFloat.div (float_of_Z mant) (float_of_Z (10 ^ Z.of_nat k)))
      else None
  | None => None
  end.

Definition lib : PyLib :=
  {| urljoin := join_url;
     urlparse := parse_url;
     quote_plus := PyStr.replace " " "+";
     float_of_str := parse_float;
     float_of_int := int_to_float;
     py_str := fun v => match v with JInt n => PyStr.of_Z n | _ => EmptyString end;
     email_findall := fun txt => filter (fun w => PyStr.contains "@" w = true) (PyStr.split txt);
     phone_findall := fun txt => filter (fun w => String.prefix "+" w = true) (PyStr.split txt) |}.

Definition empty_soup : Soup :=
  {| title_text := None; og_site_name := None; anchors := []; ld_json := [];
     details := []; page_text := EmptyString |}.

Definition not_found : Response :=
  {| status_code := 404; html := empty_soup; json_body := None |}.

Definition page (doc : Soup) : Response :=
  {| status_code := 200; html := doc; json_body := None |}.

Definition feed (v : json) : Response :=
  {| status_code := 200; html := empty_soup; json_body := Some v |}.

Fixpoint lookup_url (url : string) (site : list (string * Response)) : Response :=
  match site with
  | [] => not_found
  | (u, r) :: site' => if String.eqb u url then r else lookup_url url site'
  end.

(** A world that serves a fixed table of URLs and 404 elsewhere. *)
Definition serve (site : list (string * Response)) : World :=
  {| respond := fun _ url => Replied (lookup_url url site);
     utcnow_iso := fun _ => "2024-01-01T00:00:00" |}.

End Sample.

(* ===================================================================== *)
(** ** Vocabulary of the properties *)
(* ===================================================================== *)





Module HeroExample.

(** [<a href="/products/x" title=" ">Shoe<img alt="Pic"></a>] *)
Definition blank_title_anchor : Anchor :=
  {| a_href := Some "/products/x"; a_title := Some " ";
     a_text := "Shoe"; a_img := Some (Some "Pic") |}.

Definition home : Soup :=
  {| title_text := None; og_site_name := None;
     anchors := [blank_title_anchor]; ld_json := []; details := [];
     page_text := "Shoe" |}.

End HeroExample.

(** The URLs of [n] consecutive pages of the product feed, from [page]. *)
Fixpoint page_urls (lib : PyLib) (base : string) (page : Z) (n : nat) : list string :=
  match n with
  | O => []
  | S n' => page_url lib base page :: page_urls lib base (page + 1) n'
  end.

(** A reply that has a status other than 200, or an empty list of items. *)
Definition page_ends (reply : Reply) : Prop :=
  match reply with
  | Replied r =>
      status_code r <> 200
      \/ exists data, json_body r = Some data
                      /\ Py.get_default data "products" (JArr []) = Ok (JArr [])
  | _ => False
  end.

Definition step_products (step : loop_step) : list Product :=
  match step with Continue products | Break products => products end.

(** The value of [products] after at most [n] turns of the [while True]
    loop of [scrape_catalog] that starts at [page]. *)
Fixpoint catalog_after (lib : PyLib) (world : World) (n : nat) (base : string)
         (page : Z) (products : list Product) (log : list string) : list Product :=
  match n with
  | O => products
  | S n' =>
      match catalog_page lib world base page products log with
      | Some (Ok (Continue products'), log') =>
          catalog_after lib world n' base (page + 1) products' log'
      | Some (Ok (Break products'), _) => products'
      | _ => products
      end
  end.

(** [p] is what the first variant of the item [it] has under [price]
    ([JNull] when it has nothing there). *)
Definition first_variant_price (it p : json) : Prop :=
  exists v0 rest,
    Py.get it "variants" = Ok (JArr (v0 :: rest)) /\ Py.get v0 "price" = Ok p.

(** The rule of the specification for the price, as it is worded: a price
    value that [float] turns into a number is the price of the product. *)
Definition claimed_price_rule : Prop :=
  forall lib base it p x prod,
    first_variant_price it p -> p <> JNull ->
    price_of lib p = Ok (Some x) ->
    catalog_item lib base it = Ok prod ->
    product_price prod = Some x.

Module PriceExample.

(** [{"title": "Free", "handle": "free", "variants": [{"price": 0}]}] *)
Definition free_item : json :=
  JObj [ ("title", JStr "Free"); ("handle", JStr "free");
         ("variants", JArr [ JObj [ ("price", JInt 0) ] ]) ].

Definition priced (title handle price : string) : json :=
  JObj [ ("title", JStr title); ("handle", JStr handle);
         ("variants", JArr [ JObj [ ("price", JStr price) ] ]) ].

Definition first_page : Response :=
  Sample.feed (JObj [ ("products",
                       JArr [ priced "Mug" "mug" "19.99";
                              priced "Cup" "cup" "call us" ]) ]).

(** One page with two items, then a page with none. *)
Definition site : list (string * Response) :=
  [ ("https://a.com/products.json?limit=250&page=1", first_page);
    ("https://a.com/products.json?limit=250&page=2",
     Sample.feed (JObj [ ("products", JArr []) ])) ].

Definition shop : World := Sample.serve site.

End PriceExample.

(** The page at [path] resolves when it is asked for after the requests
    of [log]: [fetch_html] returns a document. *)
Definition resolves (lib : PyLib) (world : World) (base path : string)
           (log : list string) : Prop :=
  exists doc log', fetch_html lib world base path log = Some (Ok (Some doc), log').

(** The history after the first [i] paths of a list have been probed. *)
Definition probed (lib : PyLib) (base : string) (paths : list string) (i : nat)
           (log : list string) : list string :=
  log ++ (urljoin lib base <$> take i paths).

(** The FAQ items of a page that come from its JSON-LD scripts, and those
    that come from its [details] elements. *)
Definition structured_faqs (url : string) (doc : Soup) : list FAQItem :=
  fold_left (ld_json_faqs url) (ld_json doc) [].

Definition disclosure_faqs (url : string) (doc : Soup) : list FAQItem :=
  fold_left (details_faq url) (details doc) [].

(** What probing [path] after the requests of [log] finds: the FAQ items
    of the page, none when it does not resolve. *)
Definition found_faqs (lib : PyLib) (world : World) (base path : string)
           (log : list string) : list FAQItem :=
  match fetch_html lib world base path log with
  | Some (Ok (Some doc), _) => page_faqs (urljoin lib base path) doc
  | _ => []
  end.

(** FAQ extraction as the specification words it: within a page the
    structured data is preferred to the disclosure widgets, which are
    scraped only when there is no structured item; the first page that
    yields an item wins. *)
Definition claimed_page_faqs (url : string) (doc : Soup) : list FAQItem :=
  match structured_faqs url doc with
  | [] => disclosure_faqs url doc
  | faqs => faqs
  end.

Fixpoint claimed_faqs_loop (lib : PyLib) (world : World) (base : string)
         (paths : list string) : M (list FAQItem) :=
  match paths with
  | [] => mret []
  | path :: rest =>
      soup ← fetch_html lib world base path;
      match soup with
      | None => claimed_faqs_loop lib world base rest
      | Some doc =>
          match claimed_page_faqs (urljoin lib base path) doc with
          | [] => claimed_faqs_loop lib world base rest
          | faqs => mret faqs
          end
      end
  end.

Definition claimed_scrape_faqs (lib : PyLib) (world : World) (base : string)
  : M (list FAQItem) :=
  claimed_faqs_loop lib world base FAQ_PATHS.

Module FaqExample.

(** A page with one question in a JSON-LD [FAQPage] and another in a
    [details] element. *)
Definition faq_page : Soup :=
  {| title_text := Some "FAQ"; og_site_name := None; anchors := [];
     ld_json :=
       [ Some (JObj [ ("@type", JStr "FAQPage");
                      ("mainEntity",
                       JArr [ JObj [ ("name", JStr "Do you ship abroad?");
                                     ("acceptedAnswer",
                                      JObj [ ("text", JStr "Yes.") ]) ] ]) ]) ];
     details :=
       [ {| d_summary := Some "Can I return an item?";
            d_text := "Can I return an item? Within 30 days." |} ];
     page_text := "Can I return an item? Within 30 days." |}.

Definition site : list (string * Response) :=
  [ ("https://a.com/pages/faq", Sample.page faq_page) ].

Definition shop : World := Sample.serve site.

End FaqExample.

(** The rule of the specification for the important links, as it is
    worded: for each key, the first of its paths that resolves gives the
    recorded URL. *)
Definition claimed_first_match : Prop :=
  forall lib world base log out log' i path key,
    scrape_important_links lib world base log = Some (Ok out, log') ->
    LINK_PATHS !! i = Some (path, key) ->
    resolves lib world base path (probed lib base (LINK_PATHS.*1) i log) ->
    (forall j p, (j < i)%nat -> LINK_PATHS !! j = Some (p, key) ->
       ~ resolves lib world base p (probed lib base (LINK_PATHS.*1) j log)) ->
    out !! key = Some (Some (urljoin lib base path)).

Module LinkExample.

(** A shop with two of the three order-tracking pages. *)
Definition site : list (string * Response) :=
  [ ("https://a.com/pages/track", Sample.page Sample.empty_soup);
    ("https://a.com/pages/order-tracking", Sample.page Sample.empty_soup) ].

Definition shop : World := Sample.serve site.

End LinkExample.

(** What holds of the candidates and the hosts seen, all along the
    discovery: the candidates have pairwise distinct hosts, all of them
    seen, and each is the root of a link whose host is not the origin's. *)
Definition discovered (lib : PyLib) (self_host : string)
           (candidates : list string) (seen_hosts : gset string) : Prop :=
  (exists hosts,
      Forall2 (fun c h => netloc lib c = Ok h) candidates hosts
      /\ NoDup hosts
      /\ forall h, h ∈ hosts -> h ∈ seen_hosts)
  /\ Forall (fun c => exists href host,
                normalize_root lib href = Ok c
                /\ netloc lib href = Ok host
                /\ host <> self_host) candidates.

Module CapExample.

Definition link (href : string) : Anchor :=
  {| a_href := Some href; a_title := None; a_text := href; a_img := None |}.

Definition results (hrefs : list string) : Response :=
  Sample.page {| title_text := None; og_site_name := None;
                 anchors := link <$> hrefs; ld_json := []; details := [];
                 page_text := EmptyString |}.

(** The result pages of the three queries for the brand [Acme]: four
    shops on the first, one more on each of the others. *)
Definition site : list (string * Response) :=
  [ ("https://duckduckgo.com/html/?q=Acme+shopify",
     results [ "https://b1.com/"; "https://b2.com/shop";
               "https://b3.com/"; "https://b4.com/" ]);
    ("https://duckduckgo.com/html/?q=Acme+competitors+shopify",
     results [ "https://b1.com/about"; "https://b5.com/"; "https://b7.com/" ]);
    ("https://duckduckgo.com/html/?q=Acme+similar+brands+shopify",
     results [ "https://a.com/"; "https://b6.com/"; "https://b8.com/" ]) ].

Definition web : World := Sample.serve site.

End CapExample.

Module Storefront.

(** The home page of a shop: a title, a product link, a social link. *)
Definition home : Soup :=
  {| title_text := Some "Acme | Mugs and cups"; og_site_name := None;
     anchors :=
       [ {| a_href := Some "/products/mug"; a_title := Some "Mug";
            a_text := "The mug"; a_img := None |};
         {| a_href := Some "https://instagram.com/acme"; a_title := None;
            a_text := "Instagram"; a_img := None |} ];
     ld_json := []; details := []; page_text := "Acme Mugs and cups" |}.

Definition contact_page : Soup :=
  {| title_text := Some "Contact"; og_site_name := None;
     anchors :=
       [ {| a_href := Some "mailto:hello@a.com"; a_title := None;
            a_text := "Write to us"; a_img := None |};
         {| a_href := Some "tel:+15550100"; a_title := None;
            a_text := "Call us"; a_img := None |} ];
     ld_json := []; details := [];
     page_text := "Write to sales@a.com or hello@a.com" |}.

(** A shop, the result pages of the search for its brand, and the feed
    of the first shop found. *)
Definition site : list (string * Response) :=
  [ ("https://a.com/", Sample.page home);
    ("https://a.com/pages/contact-us", Sample.page contact_page);
    ("https://b1.com/products.json?limit=1",
     Sample.feed (JObj [ ("products", JArr [ PriceExample.priced "Pot" "pot" "5" ]) ]));
    ("https://b1.com/products.json?limit=250&page=1",
     Sample.feed (JObj [ ("products", JArr [ PriceExample.priced "Pot" "pot" "5" ]) ])) ]
  ++ PriceExample.site ++ FaqExample.site ++ LinkExample.site ++ CapExample.site.

Definition web : World := Sample.serve site.

(** A world in which nothing resolves. *)
Definition nowhere : World := Sample.serve [].

End Storefront.

(** Every character of [s] passes the test [P]. *)
Fixpoint all_chars (P : ascii -> bool) (s : string) : bool :=
  match s with
  | EmptyString => true
  | String c s' => (P c && all_chars P s')%bool
  end.

(** White space in [s] is made of single blanks: a white-space character
    is a blank and does not come first or right after another one.
    [after_space] tells that the character before was white space (or
    that there was none). *)
Fixpoint spaced (after_space : bool) (s : string) : bool :=
  match s with
  | EmptyString => true
  | String c s' =>
      if PyStr.is_space c
      then (negb after_space && Ascii.eqb c " " && spaced true s')%bool
      else spaced false s'
  end.

(** A word: a string that is not empty and has no white space. *)
Definition is_word (w : string) : Prop :=
  w <> EmptyString /\ all_chars (fun c => negb (PyStr.is_space c)) w = true.

(** The history after the first [i] of a list of (type, path) pairs have
    been probed. *)
Definition probed_policies (lib : PyLib) (base : string)
           (paths : list (string * string)) (i : nat) (log : list string)
  : list string :=
  probed lib base (paths.*2) i log.

(** The names [SOCIAL_MAP] gives to platforms. *)
Definition PLATFORMS : list string :=
  [ "instagram"; "facebook"; "twitter"; "tiktok"; "youtube"; "pinterest";
    "linkedin" ].

Module BadItemExample.

(** A page whose second item is a string, not an object. *)
Definition first_page : Response :=
  Sample.feed (JObj [ ("products",
                       JArr [ PriceExample.priced "Mug" "mug" "19.99";
                              JStr "oops";
                              PriceExample.priced "Cup" "cup" "4" ]) ]).

Definition shop : World :=
  Sample.serve [ ("https://a.com/products.json?limit=250&page=1", first_page) ].

End BadItemExample.

(* ===================================================================== *)
(** ** Python strings at work *)
(* ===================================================================== *)

Example strip_ex : PyStr.strip "  Blue  Shoe
 " = "Blue  Shoe".
Proof. reflexivity. Qed.

Example replace_ex : PyStr.replace "www." "" "www.shop.www.example" = "shop.example".
Proof. reflexivity. Qed.

Example text_excerpt_ex : text_excerpt "  our   story
began " 9 = "our story".
Proof. reflexivity. Qed.

(* ===================================================================== *)
(** ** Running computations *)
(* ===================================================================== *)

Section Runs.

Context {A B : Type}.

Lemma bind_run (m : M A) (f : A -> M B) log :
  (m ≫= f) log =
  match m log with
  | Some (Ok a, log1) => f a log1
  | Some (Raise e, log1) => Some (Raise e, log1)
  | None => None
  end.
Proof. reflexivity. Qed.

Lemma bind_Ok (m : M A) (f : A -> M B) log b log' :
  (m ≫= f) log = Some (Ok b, log') ->
  exists a log1, m log = Some (Ok a, log1) /\ f a log1 = Some (Ok b, log').
Proof.
  rewrite bind_run. destruct (m log) as [[[a|e] log1]|]; try discriminate.
  intros H. exists a, log1. split; [reflexivity | exact H].
Qed.

Lemma try_except_run (m : M A) (h : exn -> M A) log :
  try_except m h log =
  match m log with
  | Some (Raise e, log1) => h e log1
  | r => r
  end.
Proof. reflexivity. Qed.

End Runs.

(** Splits a hypothesis [(x ← m; k) log = Some (Ok b, log')] in two. *)
Ltac bind_ok H :=
  let a := fresh "a" in
  let l := fresh "log" in
  let H1 := fresh H in
  apply bind_Ok in H; destruct H as (a & l & H1 & H).

Section Properties.

Context (lib : PyLib) (world : World).

(** *** The fetcher *)

(** A fetch is one request, whatever comes back. *)
Lemma fetch_html_log base path log :
  exists r, fetch_html lib world base path log
            = Some (r, log ++ [urljoin lib base path]).
Proof.
  unfold fetch_html. rewrite try_except_run, bind_run. unfold client_get.
  destruct (respond world log (urljoin lib base path)) as [r|msg|msg]; cbn.
  - destruct (Z.eqb (status_code r) 200); eauto.
  - eauto.
  - eauto.
Qed.

Lemma fetch_html_Ok base path log o log' :
  fetch_html lib world base path log = Some (Ok o, log') ->
  log' = log ++ [urljoin lib base path].
Proof.
  intros H. destruct (fetch_html_log base path log) as [r Hr]. congruence.
Qed.

(** *** The request handlers *)

Lemma not_a_storefront_true ctx :
  not_a_storefront ctx = true <-> catalog ctx = [] /\ hero_products ctx = [].
Proof.
  unfold not_a_storefront.
  destruct (catalog ctx), (hero_products ctx); split; intros H;
    try discriminate; try (destruct H; discriminate); auto.
Qed.

Lemma not_a_storefront_false ctx :
  not_a_storefront ctx = false <-> catalog ctx <> [] \/ hero_products ctx <> [].
Proof.
  unfold not_a_storefront.
  destruct (catalog ctx), (hero_products ctx); split; intros H;
    try discriminate; try reflexivity; auto.
  destruct H as [H|H]; contradiction.
Qed.

(** C1.  When an aggregation pass of [/insights] returns a BrandContext
    whose catalog and hero products are both empty, the reply has status
    401; when one of the two is not empty, the reply is that BrandContext,
    with the status of success. *)
Theorem insights_gate fuel website_url log ctx log' :
  get_brand_context lib world fuel website_url log = Some (Ok ctx, log') ->
  (catalog ctx = [] /\ hero_products ctx = [] ->
     exists r, insights lib world fuel website_url log = Some (r, log')
               /\ http_status r = 401)
  /\ (catalog ctx <> [] \/ hero_products ctx <> [] ->
       exists r, insights lib world fuel website_url log = Some (r, log')
                 /\ r = Ok ctx /\ http_status r = 200).
Proof.
  intros Hctx. unfold insights. rewrite try_except_run, bind_run, Hctx.
  split; intros Hgate.
  - apply not_a_storefront_true in Hgate. rewrite Hgate. cbn.
    eexists. split; reflexivity.
  - apply not_a_storefront_false in Hgate. rewrite Hgate. cbn.
    eexists. repeat split; reflexivity.
Qed.

Lemma slice_to_length {X} (l : list X) n :
  0 <= n -> Z.of_nat (length (slice_to l n)) <= n.
Proof.
  intros Hn. unfold slice_to.
  destruct (Z.leb_spec 0 n) as [_|]; [|lia].
  rewrite length_take. lia.
Qed.

Lemma find_competitor_candidates_length website_url name limit log urls log' :
  0 <= limit ->
  find_competitor_candidates lib world website_url name limit log
    = Some (Ok urls, log') ->
  Z.of_nat (length urls) <= limit.
Proof.
  intros Hn H. unfold find_competitor_candidates in H.
  bind_ok H. bind_ok H. injection H as <- _.
  by apply slice_to_length.
Qed.

Lemma competitor_loop_spec fuel urls : forall contexts log res log',
  competitor_loop lib world fuel urls contexts log = Some (Ok res, log') ->
  (length res <= length contexts + length urls)%nat
  /\ (Forall (fun c => catalog c <> [] \/ hero_products c <> []) contexts ->
      Forall (fun c => catalog c <> [] \/ hero_products c <> []) res).
Proof.
  induction urls as [|cu rest IH]; intros contexts log res log' H.
  - injection H as <- _. split; [cbn; lia | auto].
  - cbn [competitor_loop] in H. bind_ok H.
    apply IH in H as [Hlen Hall]. clear H0.
    destruct a as [cctx|].
    + destruct (not_a_storefront cctx) eqn:Hgate.
      * split; [cbn; lia | exact Hall].
      * split.
        { rewrite length_app in Hlen. cbn in *. lia. }
        { intros Hc. apply Hall. apply Forall_app. split; [exact Hc|].
          constructor; [|constructor]. by apply not_a_storefront_false. }
    + split; [cbn; lia | exact Hall].
Qed.

(** C2.  A call of [/competitors] with a limit [n] between 1 and 5 that
    returns a result returns at most [n] competitors, and each of them
    has a catalog or a list of hero products that is not empty. *)
Theorem competitors_bounded fuel website_url limit log res log' :
  1 <= limit <= 5 ->
  competitors lib world fuel website_url limit log = Some (Ok res, log') ->
  Z.of_nat (length (competitors_of res)) <= limit
  /\ Forall (fun c => catalog c <> [] \/ hero_products c <> [])
            (competitors_of res).
Proof.
  intros Hlimit H. unfold competitors in H. rewrite try_except_run in H.
  match type of H with
  | match ?m with _ => _ end = _ => destruct m as [[[r|e] log1]|] eqn:Hrun
  end.
  - injection H as -> ->. bind_ok Hrun.
    destruct (not_a_storefront a); [discriminate|].
    bind_ok Hrun. bind_ok Hrun. injection Hrun as <- _. cbn.
    apply find_competitor_candidates_length in Hrun1; [|lia].
    apply competitor_loop_spec in Hrun2 as [Hlen Hall].
    split; [cbn in Hlen; lia | apply Hall; constructor].
  - destruct e; discriminate.
  - discriminate.
Qed.

(** *** Hero products *)


Lemma is_empty_false s : PyStr.is_empty s = false <-> s <> EmptyString.
Proof. destruct s; split; intros H; try discriminate; try reflexivity; congruence. Qed.






End Properties.


(* ===================================================================== *)
(** ** Catalog pagination *)
(* ===================================================================== *)

Section CatalogProperties.

Context (lib : PyLib) (world : World).

Lemma catalog_items_prefix base items : forall products,
  products `prefix_of` (catalog_items lib base items products).1.
Proof.
  induction items as [|it rest IH]; intros products; cbn.
  - reflexivity.
  - destruct (catalog_item lib base it) as [p|e]; cbn; [|reflexivity].
    etransitivity; [|apply IH]. by apply prefix_app_r.
Qed.

(** A turn of the loop is one request; it always hands back a list that
    extends the one it was given. *)
Lemma catalog_page_total base page products log :
  exists step,
    catalog_page lib world base page products log
      = Some (Ok step, log ++ [page_url lib base page])
    /\ products `prefix_of` step_products step.
Proof.
  unfold catalog_page. rewrite try_except_run, bind_run. unfold client_get.
  destruct (respond world log (page_url lib base page)) as [r|msg|msg];
    [|eexists; split; [reflexivity|cbn; reflexivity]..].
  destruct (Z.eqb (status_code r) 200); cbn;
    [|eexists; split; [reflexivity|cbn; reflexivity]].
  rewrite bind_run.
  destruct (json_body r) as [data|]; cbn;
    [|eexists; split; [reflexivity|cbn; reflexivity]].
  rewrite bind_run. unfold lift.
  destruct (Py.get_default data "products" (JArr [])) as [items|e]; cbn;
    [|eexists; split; [reflexivity|cbn; reflexivity]].
  destruct (Py.truthy items); cbn;
    [|eexists; split; [reflexivity|cbn; reflexivity]].
  rewrite bind_run.
  destruct (Py.iter items) as [its|e]; cbn;
    [|eexists; split; [reflexivity|cbn; reflexivity]].
  pose proof (catalog_items_prefix base its products) as Hpre.
  destruct (catalog_items lib base its products) as [ps [e|]]; cbn in *;
    eexists; (split; [reflexivity|exact Hpre]).
Qed.

Lemma catalog_page_ends base page products log :
  page_ends (respond world log (page_url lib base page)) ->
  catalog_page lib world base page products log
    = Some (Ok (Break products), log ++ [page_url lib base page]).
Proof.
  unfold page_ends, catalog_page. rewrite try_except_run, bind_run.
  unfold client_get.
  destruct (respond world log (page_url lib base page)) as [r|msg|msg];
    [|contradiction..].
  intros [Hstatus|(data & Hdata & Hitems)].
  - apply Z.eqb_neq in Hstatus. rewrite Hstatus. reflexivity.
  - destruct (Z.eqb (status_code r) 200); [|reflexivity]. cbn.
    rewrite bind_run, Hdata. cbn. rewrite bind_run. unfold lift.
    rewrite Hitems. reflexivity.
Qed.

Lemma catalog_loop_terminates base : forall k page products log,
  page_ends (respond world (log ++ page_urls lib base page k)
               (page_url lib base (page + Z.of_nat k))) ->
  exists j, (j <= k)%nat /\
    forall fuel, (j < fuel)%nat ->
      catalog_loop lib world fuel base page products log
        = Some (Ok (catalog_after lib world (S j) base page products log),
                log ++ page_urls lib base page (S j)).
Proof.
  induction k as [|k IH]; intros page products log Hend.
  - cbn in Hend. rewrite app_nil_r, Z.add_0_r in Hend.
    exists O. split; [lia|]. intros [|fuel] Hfuel; [lia|].
    cbn [catalog_loop catalog_after page_urls]. rewrite bind_run.
    rewrite (catalog_page_ends _ _ _ _ Hend). reflexivity.
  - destruct (catalog_page_total base page products log) as ([ps|ps] & Hstep & _).
    + destruct (IH (page + 1) ps (log ++ [page_url lib base page])) as (j & Hj & Hrun).
      { cbn [page_urls] in Hend. rewrite <- app_assoc. cbn.
        replace (page + 1 + Z.of_nat k) with (page + Z.of_nat (S k)) by lia.
        exact Hend. }
      exists (S j). split; [lia|]. intros [|fuel] Hfuel; [lia|].
      cbn [catalog_loop]. rewrite bind_run, Hstep.
      rewrite Hrun by lia.
      change (catalog_after lib world (S (S j)) base page products log)
        with (match catalog_page lib world base page products log with
              | Some (Ok (Continue products'), log') =>
                  catalog_after lib world (S j) base (page + 1) products' log'
              | Some (Ok (Break products'), _) => products'
              | _ => products
              end).
      rewrite Hstep. cbn [page_urls]. rewrite <- app_assoc. reflexivity.
    + exists O. split; [lia|]. intros [|fuel] Hfuel; [lia|].
      cbn [catalog_loop catalog_after page_urls]. rewrite bind_run, Hstep.
      reflexivity.
Qed.

Lemma catalog_after_extends base : forall n page products log,
  products `prefix_of` catalog_after lib world n base page products log.
Proof.
  induction n as [|n IH]; intros page products log; cbn [catalog_after].
  - reflexivity.
  - destruct (catalog_page_total base page products log) as ([ps|ps] & Hstep & Hpre);
      rewrite Hstep; cbn in Hpre.
    + etransitivity; [exact Hpre | apply IH].
    + exact Hpre.
Qed.

Lemma catalog_after_mono base : forall n m page products log,
  (n <= m)%nat ->
  catalog_after lib world n base page products log
    `prefix_of` catalog_after lib world m base page products log.
Proof.
  induction n as [|n IH]; intros m page products log Hnm.
  - apply catalog_after_extends.
  - destruct m as [|m]; [lia|]. cbn [catalog_after].
    destruct (catalog_page_total base page products log) as ([ps|ps] & Hstep & _);
      rewrite Hstep.
    + apply IH. lia.
    + reflexivity.
Qed.

(** C4.  If the page of the product feed that follows [k] consumed
    pages comes back with a status other than 200 or with an empty list
    of items, [scrape_catalog] returns, given enough turns, after at most
    [k + 1] requests, which are those of the pages 1, 2, ... in order; and
    the list accumulated after [n] turns is never longer than the one
    after [m >= n] turns. *)
Theorem scrape_catalog_terminates base log k :
  page_ends (respond world (log ++ page_urls lib base 1 k)
               (page_url lib base (1 + Z.of_nat k))) ->
  (exists j, (j <= k)%nat /\
     forall fuel, (j < fuel)%nat ->
       scrape_catalog lib world fuel base log
         = Some (Ok (catalog_after lib world (S j) base 1 [] log),
                 log ++ page_urls lib base 1 (S j)))
  /\ (forall n m, (n <= m)%nat ->
        (length (catalog_after lib world n base 1 [] log)
         <= length (catalog_after lib world m base 1 [] log))%nat).
Proof.
  intros Hend. split.
  - by apply catalog_loop_terminates.
  - intros n m Hnm. apply prefix_length. by apply catalog_after_mono.
Qed.

(** *** Prices *)

Lemma item_price_first it p :
  first_variant_price it p ->
  item_price lib it = if Py.truthy p then price_of lib p else Ok None.
Proof.
  intros (v0 & rest & Hv & Hp). unfold item_price. rewrite Hv. cbn.
  rewrite Hp. reflexivity.
Qed.

Lemma catalog_item_price base it prod :
  catalog_item lib base it = Ok prod ->
  item_price lib it = Ok (product_price prod).
Proof.
  unfold catalog_item.
  destruct (Py.get it "handle") as [h|]; cbn; [|discriminate].
  destruct (item_image lib base it) as [image|]; cbn; [|discriminate].
  destruct (item_price lib it) as [price|]; cbn; [|discriminate].
  destruct (Py.get it "title") as [t|]; cbn; [|discriminate].
  destruct (Py.or_empty_strip t) as [title|]; cbn; [|discriminate].
  intros [= <-]. reflexivity.
Qed.

Lemma catalog_item_made base it price image title :
  item_price lib it = Ok price ->
  item_image lib base it = Ok image ->
  (Py.get it "title" ≫= Py.or_empty_strip) = Ok title ->
  exists prod, catalog_item lib base it = Ok prod
               /\ product_price prod = price
               /\ product_title prod = title
               /\ product_image prod = image.
Proof.
  intros Hprice Himage Htitle. unfold catalog_item.
  destruct (Py.get it "handle") as [h|e] eqn:Hh; cbn.
  - rewrite Himage. cbn. rewrite Hprice. cbn.
    destruct (Py.get it "title") as [t|]; cbn in *; [|discriminate].
    rewrite Htitle. cbn. eexists. repeat split; reflexivity.
  - destruct it; try discriminate.
Qed.

Lemma catalog_page_items base page products log r data items its :
  respond world log (page_url lib base page) = Replied r ->
  status_code r = 200 ->
  json_body r = Some data ->
  Py.get_default data "products" (JArr []) = Ok items ->
  Py.truthy items = true ->
  Py.iter items = Ok its ->
  catalog_page lib world base page products log
    = Some (Ok (match catalog_items lib base its products with
                | (products', None) => Continue products'
                | (products', Some _) => Break products'
                end), log ++ [page_url lib base page]).
Proof.
  intros Hr Hstatus Hdata Hitems Htruthy Hiter.
  unfold catalog_page. rewrite try_except_run, bind_run. unfold client_get.
  rewrite Hr, Hstatus. cbn. rewrite bind_run, Hdata. cbn.
  rewrite bind_run. unfold lift. rewrite Hitems, Htruthy. cbn.
  rewrite bind_run, Hiter.
  destruct (catalog_items lib base its products) as [ps [e|]]; reflexivity.
Qed.

(** C5, as amended.  For a catalog item whose first variant has the
    value [p] under [price]: when [p] is truthy (a string that is not
    empty, a number that is not zero) and [float] turns it into a number,
    the product has that number as its price; when [p] is a string that
    [float] rejects, the product is still made, as long as its image and
    title are, and has no price; when [p] is falsy (a numeric zero, an
    empty string, nothing) the product has no price.  In particular, a
    feed of one page with two items, the first with a string price that
    parses and the second with one that does not, gives the two
    products, the first with the price and the second without. *)
Theorem catalog_price_rule base :
  (forall it p, first_variant_price it p ->
     (forall x prod,
         Py.truthy p = true -> price_of lib p = Ok (Some x) ->
         catalog_item lib base it = Ok prod -> product_price prod = Some x)
     /\ (forall s image title,
           p = JStr s -> float_of_str lib s = None ->
           item_image lib base it = Ok image ->
           (Py.get it "title" ≫= Py.or_empty_strip) = Ok title ->
           exists prod, catalog_item lib base it = Ok prod
                        /\ product_price prod = None)
     /\ (forall prod,
           Py.truthy p = false ->
           catalog_item lib base it = Ok prod -> product_price prod = None))
  /\ (forall log r members it1 it2 s1 s2 x image1 title1 image2 title2,
        respond world log (page_url lib base 1) = Replied r ->
        status_code r = 200 ->
        json_body r = Some (JObj members) ->
        Py.assoc "products" members = Some (JArr [it1; it2]) ->
        page_ends (respond world (log ++ [page_url lib base 1]) (page_url lib base 2)) ->
        first_variant_price it1 (JStr s1) -> s1 <> EmptyString ->
        float_of_str lib s1 = Some x ->
        first_variant_price it2 (JStr s2) -> float_of_str lib s2 = None ->
        item_image lib base it1 = Ok image1 ->
        (Py.get it1 "title" ≫= Py.or_empty_strip) = Ok title1 ->
        item_image lib base it2 = Ok image2 ->
        (Py.get it2 "title" ≫= Py.or_empty_strip) = Ok title2 ->
        exists p1 p2,
          (forall fuel, (2 <= fuel)%nat ->
             scrape_catalog lib world fuel base log
               = Some (Ok [p1; p2], log ++ [page_url lib base 1; page_url lib base 2]))
          /\ product_title p1 = title1 /\ product_price p1 = Some x
          /\ product_title p2 = title2 /\ product_price p2 = None).
Proof.
  assert (Hunparsed : forall it s, first_variant_price it (JStr s) ->
             float_of_str lib s = None -> item_price lib it = Ok None).
  { intros it s Hp Hs. rewrite (item_price_first _ _ Hp). cbn.
    rewrite Hs. by destruct (negb _). }
  split.
  - intros it p Hp. repeat split.
    + intros x prod Htruthy Hparse Hitem.
      apply catalog_item_price in Hitem.
      rewrite (item_price_first _ _ Hp), Htruthy, Hparse in Hitem. congruence.
    + intros s image title -> Hs Himage Htitle.
      destruct (catalog_item_made base it None image title) as (prod & ? & ? & _); eauto.
    + intros prod Hfalsy Hitem.
      apply catalog_item_price in Hitem.
      rewrite (item_price_first _ _ Hp), Hfalsy in Hitem. congruence.
  - intros log r members it1 it2 s1 s2 x image1 title1 image2 title2
           Hr Hstatus Hdata Hitems Hend Hp1 Hs1 Hx Hp2 Hs2 Hi1 Ht1 Hi2 Ht2.
    assert (Hprice1 : item_price lib it1 = Ok (Some x)).
    { rewrite (item_price_first _ _ Hp1). cbn.
      apply is_empty_false in Hs1. rewrite Hs1. cbn. by rewrite Hx. }
    destruct (catalog_item_made base it1 _ _ _ Hprice1 Hi1 Ht1)
      as (p1 & Hitem1 & Hpr1 & Hti1 & _).
    destruct (catalog_item_made base it2 _ _ _ (Hunparsed _ _ Hp2 Hs2) Hi2 Ht2)
      as (p2 & Hitem2 & Hpr2 & Hti2 & _).
    exists p1, p2. repeat split; auto.
    intros [|[|fuel]] Hfuel; [lia..|].
    unfold scrape_catalog. cbn [catalog_loop]. rewrite bind_run.
    rewrite (catalog_page_items base 1 [] log r (JObj members)
               (JArr [it1; it2]) [it1; it2]); auto.
    2:{ cbn. by rewrite Hitems. }
    cbn [catalog_items]. rewrite Hitem1. cbn [catalog_items app].
    rewrite Hitem2. cbn [catalog_items app].
    rewrite bind_run. change (1 + 1) with 2.
    rewrite (catalog_page_ends _ _ _ _ Hend). cbn.
    rewrite <- app_assoc. reflexivity.
Qed.

End CatalogProperties.

(** C5, as it is worded, fails: the item [{"variants": [{"price": 0}]}]
    has a price value that [float] turns into the number zero, and the
    product made from it has no price. *)
Lemma zero_price_counterexample : ~ claimed_price_rule.
Proof.
  intros Hclaim.
  pose proof (Hclaim Sample.lib "https://a.com/" PriceExample.free_item (JInt 0)
                (Sample.float_of_Z 0)
                {| product_title := "Free";
                   product_url := Some "https://a.com/products/free";
                   product_price := None; product_image := None |}) as H.
  cbn [product_price] in H. discriminate H.
  - exists (JObj [("price", JInt 0)]), []. split; reflexivity.
  - discriminate.
  - reflexivity.
  - reflexivity.
Qed.

(* ===================================================================== *)
(** ** Contact, FAQs and links *)
(* ===================================================================== *)

Section ProbeProperties.

Context (lib : PyLib) (world : World).

(** *** [sorted(set(l))] *)







(** *** Contact *)








(** *** FAQs *)

Lemma details_faq_app url det faqs :
  details_faq url faqs det = faqs ++ details_faq url [] det.
Proof.
  unfold details_faq. destruct (_ && _)%bool; [reflexivity | by rewrite app_nil_r].
Qed.

Lemma fold_details_app url dets : forall faqs,
  fold_left (details_faq url) dets faqs
    = faqs ++ fold_left (details_faq url) dets [].
Proof.
  induction dets as [|det dets IH]; intros faqs; cbn.
  - by rewrite app_nil_r.
  - rewrite IH, (IH (details_faq url [] det)), details_faq_app.
    by rewrite <- app_assoc.
Qed.

(** Both kinds of items of a page are kept, the structured ones first. *)
Lemma page_faqs_both url doc :
  page_faqs url doc = structured_faqs url doc ++ disclosure_faqs url doc.
Proof. unfold page_faqs. apply fold_details_app. Qed.

Lemma faqs_loop_spec base paths : forall log faqs log',
  faqs_loop lib world base paths log = Some (Ok faqs, log') ->
  (faqs = [] /\ log' = probed lib base paths (length paths) log
   /\ forall i path, paths !! i = Some path ->
        found_faqs lib world base path (probed lib base paths i log) = [])
  \/ (exists i path doc log1,
        paths !! i = Some path
        /\ log' = probed lib base paths (S i) log
        /\ (forall j p, (j < i)%nat -> paths !! j = Some p ->
              found_faqs lib world base p (probed lib base paths j log) = [])
        /\ fetch_html lib world base path (probed lib base paths i log)
             = Some (Ok (Some doc), log1)
        /\ faqs = page_faqs (urljoin lib base path) doc
        /\ faqs <> []).
Proof.
  unfold probed.
  induction paths as [|path rest IH]; intros log faqs log' H.
  - injection H as <- <-. left. rewrite app_nil_r. repeat split; auto.
    intros i p Hp. discriminate.
  - cbn [faqs_loop] in H. bind_ok H.
    pose proof (fetch_html_Ok _ _ _ _ _ _ _ H0) as ->.
    assert (Hshift : forall k, log ++ (urljoin lib base <$> take (S k) (path :: rest))
              = (log ++ [urljoin lib base path]) ++ (urljoin lib base <$> take k rest)).
    { intros k. cbn. by rewrite cons_middle, app_assoc. }
    assert (Hhere : faqs_loop lib world base rest (log ++ [urljoin lib base path])
                      = Some (Ok faqs, log') ->
                    found_faqs lib world base path log = [] ->
                    (faqs = [] /\ log' = log ++ (urljoin lib base <$>
                                                  take (length (path :: rest)) (path :: rest))
                     /\ forall i p, (path :: rest) !! i = Some p ->
                          found_faqs lib world base p
                            (log ++ (urljoin lib base <$> take i (path :: rest))) = [])
                    \/ (exists i p doc log1,
                          (path :: rest) !! i = Some p
                          /\ log' = log ++ (urljoin lib base <$> take (S i) (path :: rest))
                          /\ (forall j q, (j < i)%nat -> (path :: rest) !! j = Some q ->
                                found_faqs lib world base q
                                  (log ++ (urljoin lib base <$> take j (path :: rest))) = [])
                          /\ fetch_html lib world base p
                               (log ++ (urljoin lib base <$> take i (path :: rest)))
                               = Some (Ok (Some doc), log1)
                          /\ faqs = page_faqs (urljoin lib base p) doc
                          /\ faqs <> [])).
    { intros Hrest Hnone. apply IH in Hrest as [(-> & -> & Hall)|Hrest].
      - left. split; [reflexivity|]. split; [cbn [length]; by rewrite Hshift|].
        intros [|i] p Hp.
        + injection Hp as <-. cbn. by rewrite app_nil_r.
        + rewrite Hshift. by apply Hall.
      - destruct Hrest as (i & p & doc & log1 & Hp & -> & Hbefore & Hfetch & -> & Hne).
        right. exists (S i), p, doc, log1.
        split; [exact Hp|]. split; [by rewrite (Hshift (S i))|].
        split; [|split; [by rewrite Hshift | by split]].
        intros [|j] q Hj Hq.
        + injection Hq as <-. cbn. by rewrite app_nil_r.
        + rewrite Hshift. apply Hbefore; [lia | exact Hq]. }
    destruct a as [doc|].
    + destruct (page_faqs (urljoin lib base path) doc) as [|item items] eqn:Hpage.
      * apply Hhere; [exact H|]. unfold found_faqs. by rewrite H0.
      * injection H as <- <-. right. exists O, path, doc, (log ++ [urljoin lib base path]).
        cbn. rewrite app_nil_r. repeat split; auto.
        intros j p Hj. lia.
    + apply Hhere; [exact H|]. unfold found_faqs. by rewrite H0.
Qed.

Lemma scrape_faqs_Ok base log faqs log' :
  scrape_faqs lib world base log = Some (Ok faqs, log') ->
  (faqs = [] /\ log' = probed lib base FAQ_PATHS (length FAQ_PATHS) log
   /\ forall i path, FAQ_PATHS !! i = Some path ->
        found_faqs lib world base path (probed lib base FAQ_PATHS i log) = [])
  \/ (exists i path doc log1,
        FAQ_PATHS !! i = Some path
        /\ log' = probed lib base FAQ_PATHS (S i) log
        /\ (forall j p, (j < i)%nat -> FAQ_PATHS !! j = Some p ->
              found_faqs lib world base p (probed lib base FAQ_PATHS j log) = [])
        /\ fetch_html lib world base path (probed lib base FAQ_PATHS i log)
             = Some (Ok (Some doc), log1)
        /\ faqs = structured_faqs (urljoin lib base path) doc
                   ++ disclosure_faqs (urljoin lib base path) doc
        /\ faqs <> []).
Proof.
  intros H. apply faqs_loop_spec in H as [H|H]; [by left|right].
  destruct H as (i & path & doc & log1 & ? & ? & ? & ? & Hfaqs & ?).
  exists i, path, doc, log1. rewrite <- page_faqs_both. auto 10.
Qed.

Lemma faqs_loop_returns base paths : forall log,
  exists r log', faqs_loop lib world base paths log = Some (r, log').
Proof.
  induction paths as [|path rest IH]; intros log; cbn [faqs_loop].
  - eexists _, _. reflexivity.
  - rewrite bind_run. destruct (fetch_html_log lib world base path log) as [r ->].
    destruct r as [[doc|]|e]; [|apply IH | eauto].
    destruct (page_faqs (urljoin lib base path) doc);
      [apply IH | eexists _, _; reflexivity].
Qed.

(** C7, as amended.  A run of [scrape_faqs] always ends.  It returns
    the FAQ items of the first probed path whose page yields any, and
    asks for no path after it; there is no merging across pages.  Within
    that page it keeps both the items of the JSON-LD [FAQPage] scripts
    and those of the [details] elements, the structured ones first.  When
    no page yields an item all the paths are probed and the result is
    empty. *)
Theorem scrape_faqs_first_page base log :
  exists r log',
    scrape_faqs lib world base log = Some (r, log')
    /\ forall faqs, r = Ok faqs ->
         (faqs = [] /\ log' = probed lib base FAQ_PATHS (length FAQ_PATHS) log
          /\ forall i path, FAQ_PATHS !! i = Some path ->
               found_faqs lib world base path (probed lib base FAQ_PATHS i log) = [])
         \/ (exists i path doc log1,
               FAQ_PATHS !! i = Some path
               /\ log' = probed lib base FAQ_PATHS (S i) log
               /\ (forall j p, (j < i)%nat -> FAQ_PATHS !! j = Some p ->
                     found_faqs lib world base p (probed lib base FAQ_PATHS j log) = [])
               /\ fetch_html lib world base path (probed lib base FAQ_PATHS i log)
                    = Some (Ok (Some doc), log1)
               /\ faqs = structured_faqs (urljoin lib base path) doc
                          ++ disclosure_faqs (urljoin lib base path) doc
               /\ faqs <> []).
Proof.
  destruct (faqs_loop_returns base FAQ_PATHS log) as (r & log' & Hrun).
  exists r, log'. split; [exact Hrun|]. intros faqs ->. by apply scrape_faqs_Ok.
Qed.

(** *** Important links *)

Lemma resolves_fetch base path log a log1 :
  fetch_html lib world base path log = Some (Ok a, log1) ->
  resolves lib world base path log <-> is_Some a.
Proof.
  intros H. unfold resolves. rewrite H. split.
  - intros (doc & l & [= -> _]). eauto.
  - intros [doc ->]. eauto.
Qed.

Lemma links_loop_spec base paths : forall out log out' log',
  links_loop lib world base paths out log = Some (Ok out', log') ->
  log' = probed lib base (paths.*1) (length paths) log
  /\ (forall i path key,
        paths !! i = Some (path, key) ->
        resolves lib world base path (probed lib base (paths.*1) i log) ->
        (forall j p, (i < j)%nat -> paths !! j = Some (p, key) ->
           ~ resolves lib world base p (probed lib base (paths.*1) j log)) ->
        out' !! key = Some (Some (urljoin lib base path)))
  /\ (forall key,
        (forall i path, paths !! i = Some (path, key) ->
           ~ resolves lib world base path (probed lib base (paths.*1) i log)) ->
        out' !! key = out !! key).
Proof.
  unfold probed.
  induction paths as [|[path key] rest IH]; intros out log out' log' H.
  - injection H as <- <-. cbn. rewrite app_nil_r. repeat split; auto.
    intros i p k Hp. discriminate.
  - cbn [links_loop] in H. bind_ok H.
    pose proof (fetch_html_Ok _ _ _ _ _ _ _ H0) as ->.
    pose proof (resolves_fetch _ _ _ _ _ H0) as Hres0.
    assert (Hshift : forall k, log ++ (urljoin lib base <$> take (S k) ((path, key) :: rest).*1)
              = (log ++ [urljoin lib base path]) ++ (urljoin lib base <$> take k (rest.*1))).
    { intros k. cbn. by rewrite cons_middle, app_assoc. }
    set (out1 := match a with
                 | Some _ => <[key := Some (urljoin lib base path)]> out
                 | None => out
                 end).
    assert (Hrun : links_loop lib world base rest out1 (log ++ [urljoin lib base path])
                   = Some (Ok out', log')) by (unfold out1; by destruct a).
    apply IH in Hrun as (-> & Hlast & Hnone).
    split; [cbn [length]; by rewrite Hshift|]. split.
    + intros [|i] p k Hp Hres Hlater.
      * injection Hp as <- <-. cbn in Hres. rewrite app_nil_r in Hres.
        rewrite Hnone.
        { apply Hres0 in Hres as [doc ->]. unfold out1. by rewrite lookup_insert_eq. }
        intros j q Hq Hresq. apply (Hlater (S j) q); [lia|exact Hq|].
        by rewrite Hshift.
      * rewrite Hshift in Hres. apply (Hlast i p k Hp Hres).
        intros j q Hj Hq Hresq. apply (Hlater (S j) q); [lia|exact Hq|].
        by rewrite Hshift.
    + intros k Hk. rewrite Hnone.
      * unfold out1. destruct a as [doc|]; [|reflexivity].
        destruct (decide (key = k)) as [->|Hne].
        { exfalso. apply (Hk O path); [reflexivity|].
          cbn. rewrite app_nil_r. apply Hres0. eauto. }
        by rewrite lookup_insert_ne.
      * intros j q Hq Hresq. apply (Hk (S j) q); [exact Hq|]. by rewrite Hshift.
Qed.

Lemma scrape_important_links_Ok base log out log' :
  scrape_important_links lib world base log = Some (Ok out, log') ->
  log' = probed lib base (LINK_PATHS.*1) (length LINK_PATHS) log
  /\ (forall i path key,
        LINK_PATHS !! i = Some (path, key) ->
        resolves lib world base path (probed lib base (LINK_PATHS.*1) i log) ->
        (forall j p, (i < j)%nat -> LINK_PATHS !! j = Some (p, key) ->
           ~ resolves lib world base p (probed lib base (LINK_PATHS.*1) j log)) ->
        out !! key = Some (Some (urljoin lib base path)))
  /\ (forall key,
        key = "order_tracking" \/ key = "contact_us" \/ key = "blogs" ->
        (forall i path, LINK_PATHS !! i = Some (path, key) ->
           ~ resolves lib world base path (probed lib base (LINK_PATHS.*1) i log)) ->
        out !! key = Some None).
Proof.
  intros H. apply links_loop_spec in H as (Hlog & Hlast & Hnone).
  split; [exact Hlog|]. split; [exact Hlast|].
  intros key Hkey Hk. rewrite (Hnone key Hk).
  destruct Hkey as [->|[->| ->]]; reflexivity.
Qed.

Lemma links_loop_returns base paths : forall out log,
  exists r log', links_loop lib world base paths out log = Some (r, log').
Proof.
  induction paths as [|[path key] rest IH]; intros out log; cbn [links_loop].
  - eexists _, _. reflexivity.
  - rewrite bind_run. destruct (fetch_html_log lib world base path log) as [r ->].
    destruct r as [[doc|]|e]; [apply IH | apply IH | eauto].
Qed.

(** C8, as amended.  A run of [scrape_important_links] always ends.  It
    probes its six paths in order, all of them, and does not stop at a
    success; for each key the last of its paths that resolves gives the
    recorded URL (a later resolving path for the same key replaces an
    earlier one), and a key none of whose paths resolves is recorded
    with [None]. *)
Theorem scrape_important_links_last_match base log :
  exists r log',
    scrape_important_links lib world base log = Some (r, log')
    /\ forall out, r = Ok out ->
         log' = probed lib base (LINK_PATHS.*1) (length LINK_PATHS) log
         /\ (forall i path key,
               LINK_PATHS !! i = Some (path, key) ->
               resolves lib world base path (probed lib base (LINK_PATHS.*1) i log) ->
               (forall j p, (i < j)%nat -> LINK_PATHS !! j = Some (p, key) ->
                  ~ resolves lib world base p (probed lib base (LINK_PATHS.*1) j log)) ->
               out !! key = Some (Some (urljoin lib base path)))
         /\ (forall key,
               key = "order_tracking" \/ key = "contact_us" \/ key = "blogs" ->
               (forall i path, LINK_PATHS !! i = Some (path, key) ->
                  ~ resolves lib world base path (probed lib base (LINK_PATHS.*1) i log)) ->
               out !! key = Some None).
Proof.
  destruct (links_loop_returns base LINK_PATHS no_links log) as (r & log' & Hrun).
  exists r, log'. split; [exact Hrun|]. intros out ->.
  by apply scrape_important_links_Ok.
Qed.

End ProbeProperties.

(** C8, as it is worded, fails: when [/pages/track] and
    [/pages/order-tracking] both resolve, the URL recorded for
    [order_tracking] is that of the second, not of the first. *)
Lemma first_match_counterexample : ~ claimed_first_match.
Proof.
  intros Hclaim.
  pose proof (Hclaim Sample.lib LinkExample.shop "https://a.com/" []
                _ _ O "/pages/track" "order_tracking" eq_refl eq_refl) as H.
  discriminate H.
  - eexists _, _. reflexivity.
  - intros j p Hj. lia.
Qed.

(** C7, as it is worded, fails: for a page that has a question in a
    JSON-LD [FAQPage] and another in a [details] element the code returns
    both, where a scraper that prefers the structured data returns the
    first alone. *)
Lemma faq_preference_counterexample :
  ~ (forall lib world base log,
       scrape_faqs lib world base log = claimed_scrape_faqs lib world base log).
Proof.
  intros Hclaim.
  specialize (Hclaim Sample.lib FaqExample.shop "https://a.com/" []).
  vm_compute in Hclaim. discriminate Hclaim.
Qed.

(* ===================================================================== *)
(** ** The aggregate record *)
(* ===================================================================== *)

Section AggregateProperties.

Context (lib : PyLib) (world : World).

(** The contact and link dicts of a BrandContext are what the two
    scrapers returned for its store URL. *)
Lemma get_brand_context_parts fuel website_url log ctx log' :
  get_brand_context lib world fuel website_url log = Some (Ok ctx, log') ->
  exists l1 l1' l2 l2',
    scrape_contact lib world (store_url ctx) l1 = Some (Ok (contact ctx), l1')
    /\ scrape_important_links lib world (store_url ctx) l2
         = Some (Ok (important_links ctx), l2').
Proof.
  intros H. unfold get_brand_context in H.
  do 9 bind_ok H. injection H as <- _.
  cbn [store_url contact important_links].
  eexists _, _, _, _. split; eassumption.
Qed.

Lemma links_loop_dom base paths : forall out log out' log',
  (forall path key, (path, key) ∈ paths -> key ∈ dom out) ->
  links_loop lib world base paths out log = Some (Ok out', log') ->
  dom out' = dom out.
Proof.
  induction paths as [|[path key] rest IH]; intros out log out' log' Hkeys H.
  - by injection H as <- _.
  - cbn [links_loop] in H. bind_ok H.
    assert (Hkey : key ∈ dom out) by (apply (Hkeys path); left).
    destruct a as [doc|].
    + apply IH in H.
      * rewrite H, dom_insert_L. set_solver.
      * intros p k Hp. rewrite dom_insert_L.
        apply elem_of_union_r, (Hkeys p). by right.
    + apply IH in H; [exact H|]. intros p k Hp. apply (Hkeys p). by right.
Qed.

Lemma contact_loop_none base paths : forall log emails phones page log',
  (forall path l, ~ resolves lib world base path l) ->
  contact_loop lib world base paths log = Some (Ok (emails, phones, page), log') ->
  emails = [] /\ phones = [] /\ page = None.
Proof.
  induction paths as [|path rest IH]; intros log emails phones page log' Hno H.
  - by injection H as <- <- <- _.
  - cbn [contact_loop] in H. bind_ok H. destruct a as [doc|].
    + exfalso. apply (Hno path log). unfold resolves. eauto.
    + by apply IH in H.
Qed.

(** C10.  In every BrandContext [get_brand_context] returns, the keys
    of [contact] are exactly [emails], [phones] and [contact_page], and
    the keys of [important_links] are exactly [order_tracking],
    [contact_us] and [blogs]; when no page of the store resolves, each of
    the six is there with the value [None]. *)
Theorem brand_context_keys fuel website_url log ctx log' :
  get_brand_context lib world fuel website_url log = Some (Ok ctx, log') ->
  dom (contact ctx) = {[ "emails"; "phones"; "contact_page" ]}
  /\ dom (important_links ctx) = {[ "order_tracking"; "contact_us"; "blogs" ]}
  /\ ((forall path l, ~ resolves lib world (store_url ctx) path l) ->
      contact ctx !! "emails" = Some None
      /\ contact ctx !! "phones" = Some None
      /\ contact ctx !! "contact_page" = Some None
      /\ important_links ctx !! "order_tracking" = Some None
      /\ important_links ctx !! "contact_us" = Some None
      /\ important_links ctx !! "blogs" = Some None).
Proof.
  intros H.
  apply get_brand_context_parts in H as (l1 & l1' & l2 & l2' & Hcontact & Hlinks).
  split; [|split].
  - unfold scrape_contact in Hcontact. bind_ok Hcontact.
    destruct a as [[emails phones] page]. injection Hcontact as <- _.
    unfold contact_dict. rewrite !dom_insert_L, dom_empty_L. set_solver.
  - unfold scrape_important_links in Hlinks.
    apply links_loop_dom in Hlinks.
    + rewrite Hlinks. unfold no_links. rewrite !dom_insert_L, dom_empty_L. set_solver.
    + intros path key Hin. unfold no_links. rewrite !dom_insert_L, dom_empty_L.
      unfold LINK_PATHS in Hin. set_solver.
  - intros Hno.
    apply links_loop_spec in Hlinks as (_ & _ & Hnone).
    unfold scrape_contact in Hcontact. bind_ok Hcontact.
    destruct a as [[emails phones] page]. injection Hcontact as <- _.
    apply (contact_loop_none _ _ _ _ _ _ _ Hno) in Hcontact0 as (-> & -> & ->).
    repeat split; try reflexivity; rewrite Hnone; try reflexivity;
      intros i path _; apply Hno.
Qed.

End AggregateProperties.

(* ===================================================================== *)
(** ** Competitor discovery *)
(* ===================================================================== *)

Section CandidateProperties.

Context (lib : PyLib) (world : World).

Lemma discovered_add self_host candidates seen_hosts href host root_cand h :
  discovered lib self_host candidates seen_hosts ->
  netloc lib href = Ok host -> host <> self_host ->
  normalize_root lib href = Ok root_cand ->
  netloc lib root_cand = Ok h -> h ∉ seen_hosts ->
  discovered lib self_host (candidates ++ [root_cand]) ({[h]} ∪ seen_hosts).
Proof.
  intros [(hosts & Hhosts & Hnodup & Hseen) Hfrom] Hhost Hself Hroot Hh Hnew.
  split.
  - exists (hosts ++ [h]). split; [|split].
    + apply Forall2_app; [exact Hhosts|]. by repeat constructor.
    + apply NoDup_app. split; [exact Hnodup|]. split; [|apply NoDup_singleton].
      intros x Hx Hx'. apply list_elem_of_singleton in Hx'. subst x.
      by apply Hnew, Hseen.
    + intros x Hx. apply elem_of_app in Hx as [Hx|Hx].
      * apply elem_of_union_r. by apply Hseen.
      * apply list_elem_of_singleton in Hx. subst x. apply elem_of_union_l.
        by apply elem_of_singleton.
  - apply Forall_app. split; [exact Hfrom|]. constructor; [|constructor].
    exists href, host. auto.
Qed.

(** One result page keeps the invariant, and leaves at most
    [max (length candidates + 1) (4 * limit)] candidates. *)
Lemma page_candidates_spec self_host limit hrefs : forall candidates seen_hosts,
  discovered lib self_host candidates seen_hosts ->
  let '(candidates', seen_hosts') :=
    page_candidates lib self_host limit hrefs candidates seen_hosts in
  discovered lib self_host candidates' seen_hosts'
  /\ Z.of_nat (length candidates')
     <= Z.max (Z.of_nat (length candidates) + 1) (limit * 4).
Proof.
  induction hrefs as [|href rest IH]; intros candidates seen_hosts Hinv;
    cbn [page_candidates].
  - split; [exact Hinv | lia].
  - destruct (PyStr.startswith "http" href); cbn [negb]; [|by apply IH].
    destruct (netloc lib href) as [host|e] eqn:Hhost; [|split; [exact Hinv | lia]].
    destruct (PyStr.is_empty host || String.eqb host self_host)%bool eqn:Hskip;
      [by apply IH|].
    apply orb_false_iff in Hskip as [_ Hself]. apply String.eqb_neq in Hself.
    destruct (normalize_root lib href) as [root_cand|e] eqn:Hroot; cbn;
      [|split; [exact Hinv | lia]].
    destruct (netloc lib root_cand) as [h|e] eqn:Hh; cbn;
      [|split; [exact Hinv | lia]].
    case_bool_decide as Hin; [by apply IH|].
    pose proof (discovered_add _ _ _ _ _ _ _ Hinv Hhost Hself Hroot Hh Hin) as Hinv'.
    destruct (Z.leb_spec (limit * 4) (Z.of_nat (length (candidates ++ [root_cand]))))
      as [Hfull|Hroom].
    + split; [exact Hinv'|]. rewrite length_app. cbn. lia.
    + specialize (IH _ _ Hinv').
      destruct (page_candidates lib self_host limit rest (candidates ++ [root_cand])
                  ({[h]} ∪ seen_hosts)) as [candidates' seen_hosts'].
      destruct IH as [Hinv'' Hlen]. split; [exact Hinv''|].
      rewrite length_app in *. cbn in *. lia.
Qed.

Lemma query_loop_spec self_host limit queries : forall candidates seen_hosts log res log',
  discovered lib self_host candidates seen_hosts ->
  query_loop lib world self_host limit queries candidates seen_hosts log
    = Some (Ok res, log') ->
  (exists seen_hosts', discovered lib self_host res seen_hosts')
  /\ Z.of_nat (length res)
     <= Z.max (Z.of_nat (length candidates)) (limit * 4 - 1)
        + Z.of_nat (length queries).
Proof.
  induction queries as [|q rest IH]; intros candidates seen_hosts log res log' Hinv H.
  - injection H as <- _. split; [eauto | cbn; lia].
  - cbn [query_loop] in H. bind_ok H. destruct a as [candidates1 seen1].
    assert (Hstep : discovered lib self_host candidates1 seen1
                    /\ Z.of_nat (length candidates1)
                       <= Z.max (Z.of_nat (length candidates) + 1) (limit * 4)).
    { rewrite try_except_run, bind_run in H0. unfold client_get in H0.
      destruct (respond world log (search_url lib q)) as [r|msg|msg]; cbn in H0.
      - destruct (Z.eqb (status_code r) 200); cbn in H0.
        + injection H0 as H0 _.
          pose proof (page_candidates_spec self_host limit
                        (omap a_href (anchors (html r))) _ _ Hinv) as Hpage.
          rewrite H0 in Hpage. exact Hpage.
        + injection H0 as <- <- _. split; [exact Hinv | lia].
      - injection H0 as <- <- _. split; [exact Hinv | lia].
      - injection H0 as <- <- _. split; [exact Hinv | lia]. }
    destruct Hstep as [Hinv1 Hlen1].
    apply (IH _ _ _ _ _ Hinv1) in H as [Hres Hlen]. split; [exact Hres|].
    cbn [length]. lia.
Qed.

(** What does hold of the candidates: for a limit [n >= 1] there are at
    most [4 * n + 2] of them, with pairwise distinct hosts, each the root
    of a link whose host is not the origin's. *)
Lemma competitor_candidates_bound website_url name limit log candidates log' :
  1 <= limit ->
  competitor_candidates lib world website_url name limit log
    = Some (Ok candidates, log') ->
  Z.of_nat (length candidates) <= limit * 4 + 2
  /\ exists self_host seen_hosts,
       (root ← normalize_root lib website_url; netloc lib root) = Ok self_host
       /\ discovered lib self_host candidates seen_hosts.
Proof.
  intros Hlimit H. unfold competitor_candidates in H.
  bind_ok H. bind_ok H. rename a into root, a0 into self_host.
  unfold lift in H0, H1. injection H0 as H0 _. injection H1 as H1 _.
  apply query_loop_spec in H as [[seen Hinv] Hlen].
  - split.
    + assert (length (search_queries name self_host) <= 3)%nat.
      { unfold search_queries. destruct (PyStr.truthy name); cbn; lia. }
      cbn [length] in Hlen. lia.
    + exists self_host, seen. split; [|exact Hinv]. rewrite H0. cbn. exact H1.
  - split; [|constructor]. exists []. repeat split; [constructor|constructor|].
    intros h Hh. by apply elem_of_nil in Hh.
Qed.

End CandidateProperties.

(** C9 at its failing input: with the limit 1 and the brand [Acme], when
    the first result page links four shops and the two others one new shop
    each, the loop over the queries ends with six candidates, two more
    than four times the limit. *)
Theorem candidates_exceed_cap :
  exists candidates log',
    competitor_candidates Sample.lib CapExample.web "https://a.com/" (Some "Acme") 1 []
      = Some (Ok candidates, log')
    /\ Z.of_nat (length candidates) = 6
    /\ 4 * 1 < Z.of_nat (length candidates).
Proof.
  eexists _, _. split; [vm_compute; reflexivity|]. split; [reflexivity|]. cbn. lia.
Qed.

(* ===================================================================== *)
(** ** The properties at work on the sample worlds *)
(* ===================================================================== *)

(** [/insights] on the sample shop replies 200, and 401 where nothing
    resolves. *)
Lemma insights_gate_witness :
  (exists r log',
      insights Sample.lib Storefront.web 3 "https://a.com" [] = Some (r, log')
      /\ http_status r = 200)
  /\ (exists r log',
        insights Sample.lib Storefront.nowhere 3 "https://a.com" [] = Some (r, log')
        /\ http_status r = 401).
Proof.
  split.
  - unshelve refine (let H := insights_gate Sample.lib Storefront.web 3 "https://a.com" []
                       _ _ _ in _);
      [shelve | shelve | vm_compute; reflexivity |].
    destruct (proj2 H) as (r & Hr & _ & Hs); [right; vm_compute; discriminate|].
    exists r. eexists. split; [exact Hr | exact Hs].
  - unshelve refine (let H := insights_gate Sample.lib Storefront.nowhere 3 "https://a.com" []
                       _ _ _ in _);
      [shelve | shelve | vm_compute; reflexivity |].
    destruct (proj1 H) as (r & Hr & Hs); [split; vm_compute; reflexivity|].
    exists r. eexists. split; [exact Hr | exact Hs].
Defined.

(** [/competitors?limit=1] on the sample shop. *)
Lemma competitors_bounded_witness :
  exists res log',
    competitors Sample.lib Storefront.web 3 "https://a.com" 1 [] = Some (Ok res, log')
    /\ Z.of_nat (length (competitors_of res)) <= 1
    /\ Forall (fun c => catalog c <> [] \/ hero_products c <> []) (competitors_of res).
Proof.
  eexists _, _. split; [vm_compute; reflexivity|].
  eapply (competitors_bounded Sample.lib Storefront.web 3 "https://a.com" 1 []);
    [lia | vm_compute; reflexivity].
Defined.

(** The feed of the sample shop, whose second page is empty. *)
Lemma scrape_catalog_terminates_witness :
  exists j, (j <= 1)%nat /\
    forall fuel, (j < fuel)%nat ->
      scrape_catalog Sample.lib PriceExample.shop fuel "https://a.com/" []
        = Some (Ok (catalog_after Sample.lib PriceExample.shop (S j)
                      "https://a.com/" 1 [] []),
                [] ++ page_urls Sample.lib "https://a.com/" 1 (S j)).
Proof.
  refine (proj1 (scrape_catalog_terminates Sample.lib PriceExample.shop
                   "https://a.com/" [] 1 _)).
  right. eexists. split; reflexivity.
Defined.

(** One page with the prices ["19.99"] and ["call us"]. *)
Lemma catalog_price_rule_witness :
  exists p1 p2,
    (forall fuel, (2 <= fuel)%nat ->
       scrape_catalog Sample.lib PriceExample.shop fuel "https://a.com/" []
         = Some (Ok [p1; p2],
                 [] ++ [page_url Sample.lib "https://a.com/" 1;
                        page_url Sample.lib "https://a.com/" 2]))
    /\ product_title p1 = "Mug"
    /\ product_price p1 = Sample.parse_float "19.99"
    /\ product_title p2 = "Cup"
    /\ product_price p2 = None.
Proof.
  refine (proj2 (catalog_price_rule Sample.lib PriceExample.shop "https://a.com/")
            [] PriceExample.first_page _
            (PriceExample.priced "Mug" "mug" "19.99")
            (PriceExample.priced "Cup" "cup" "call us")
            "19.99" "call us" _ None "Mug" None "Cup"
            eq_refl eq_refl eq_refl eq_refl _ _ _ eq_refl _ eq_refl
            eq_refl eq_refl eq_refl eq_refl).
  - right. eexists. split; reflexivity.
  - eexists _, _. split; reflexivity.
  - discriminate.
  - eexists _, _. split; reflexivity.
Defined.


(** The FAQ page of the sample shop. *)
Lemma scrape_faqs_first_page_witness :
  exists faqs log',
    scrape_faqs Sample.lib FaqExample.shop "https://a.com/" [] = Some (Ok faqs, log')
    /\ exists path doc,
         faqs = structured_faqs (urljoin Sample.lib "https://a.com/" path) doc
                ++ disclosure_faqs (urljoin Sample.lib "https://a.com/" path) doc
         /\ length faqs = 2%nat.
Proof.
  eexists _, _. split; [vm_compute; reflexivity|].
  destruct (scrape_faqs_first_page Sample.lib FaqExample.shop "https://a.com/" [])
    as (r & log' & Hrun & H).
  vm_compute in Hrun. injection Hrun as <- <-.
  destruct (H _ eq_refl)
    as [(Hnil & _)|(i & path & doc & log1 & _ & _ & _ & _ & Hfaqs & _)];
    [discriminate Hnil|].
  exists path, doc. split; [exact Hfaqs | reflexivity].
Defined.

(** Two order-tracking pages: the later one is recorded. *)
Lemma scrape_important_links_last_match_witness :
  exists out log',
    scrape_important_links Sample.lib LinkExample.shop "https://a.com/" []
      = Some (Ok out, log')
    /\ out !! "order_tracking" = Some (Some "https://a.com/pages/order-tracking").
Proof.
  eexists _, _. split; [vm_compute; reflexivity|].
  destruct (scrape_important_links_last_match Sample.lib LinkExample.shop
              "https://a.com/" []) as (r & log' & Hrun & H).
  vm_compute in Hrun. injection Hrun as <- <-.
  refine (proj1 (proj2 (H _ eq_refl))
            2%nat "/pages/order-tracking" "order_tracking" eq_refl _ _).
  - eexists _, _. reflexivity.
  - intros j p Hj Hp.
    do 6 (destruct j as [|j]; [first [lia | discriminate Hp]|]). discriminate Hp.
Defined.

(** The two dicts of the sample shop, and of a shop where nothing
    resolves. *)
Lemma brand_context_keys_witness :
  (exists ctx log',
      get_brand_context Sample.lib Storefront.web 3 "https://a.com" [] = Some (Ok ctx, log')
      /\ dom (contact ctx) = {[ "emails"; "phones"; "contact_page" ]}
      /\ dom (important_links ctx) = {[ "order_tracking"; "contact_us"; "blogs" ]})
  /\ (exists ctx log',
        get_brand_context Sample.lib Storefront.nowhere 3 "https://a.com" []
          = Some (Ok ctx, log')
        /\ contact ctx !! "emails" = Some None
        /\ important_links ctx !! "blogs" = Some None).
Proof.
  split.
  - eexists _, _. split; [vm_compute; reflexivity|].
    refine (let H := brand_context_keys Sample.lib Storefront.web 3 "https://a.com" []
                       _ _ _ in conj (proj1 H) (proj1 (proj2 H))).
    vm_compute; reflexivity.
  - eexists _, _. split; [vm_compute; reflexivity|].
    unshelve refine (let H := brand_context_keys Sample.lib Storefront.nowhere 3 "https://a.com" []
                       _ _ _ in _);
      [shelve | shelve | vm_compute; reflexivity |].
    destruct (proj2 (proj2 H)) as (He & _ & _ & _ & _ & Hb); [|split; [exact He | exact Hb]].
    intros path l (doc & l' & Hres). discriminate Hres.
Defined.


(* ===================================================================== *)
(** ** Further properties: the fetchers *)
(* ===================================================================== *)

Section FetchProperties.

Context (lib : PyLib) (world : World).

(** X1.  [fetch_html] makes exactly one request.  It returns a document
    exactly when the reply has status 200, and then the parsed body of
    that reply; a reply with another status and a network failure both
    give [None]; it raises exactly when [client.get] raises something
    that is not an [httpx.RequestError]. *)
Theorem fetch_html_cases base path log :
  exists r,
    fetch_html lib world base path log = Some (r, log ++ [urljoin lib base path])
    /\ (forall doc,
          r = Ok (Some doc) <->
          exists resp, respond world log (urljoin lib base path) = Replied resp
                       /\ status_code resp = 200 /\ html resp = doc)
    /\ (forall e,
          r = Raise e <->
          exists msg, respond world log (urljoin lib base path) = OtherFailure msg
                      /\ e = PyError msg).
Proof.
  unfold fetch_html. rewrite try_except_run, bind_run. unfold client_get.
  destruct (respond world log (urljoin lib base path)) as [resp|msg|msg]; cbn.
  - destruct (Z.eqb_spec (status_code resp) 200) as [H200|Hnot]; cbn.
    + eexists. split; [reflexivity|]. split.
      * intros doc. split.
        -- intros [= <-]. eauto.
        -- intros (resp' & [= <-] & _ & <-). reflexivity.
      * intros e. split; [discriminate | intros (m & Hm & _); discriminate].
    + eexists. split; [reflexivity|]. split.
      * intros doc. split; [discriminate|].
        intros (resp' & [= <-] & H200 & _). contradiction.
      * intros e. split; [discriminate | intros (m & Hm & _); discriminate].
  - eexists. split; [reflexivity|]. split.
    + intros doc. split; [discriminate | intros (resp' & Hr & _); discriminate].
    + intros e. split; [discriminate | intros (m & Hm & _); discriminate].
  - eexists. split; [reflexivity|]. split.
    + intros doc. split; [discriminate | intros (resp' & Hr & _); discriminate].
    + intros e. split.
      * intros [= <-]. eauto.
      * intros (m & [= <-] & ->). reflexivity.
Qed.

(** X2.  [fetch_json_ok] makes exactly one request and never raises: it
    returns the decoded body when the reply has status 200 and its body
    decodes, and [None] in every other case, whatever went wrong. *)
Theorem fetch_json_ok_never_raises url log :
  exists o,
    fetch_json_ok world url log = Some (Ok o, log ++ [url])
    /\ forall v,
         o = Some v <->
         exists resp, respond world log url = Replied resp
                      /\ status_code resp = 200 /\ json_body resp = Some v.
Proof.
  unfold fetch_json_ok. rewrite try_except_run, bind_run. unfold client_get.
  destruct (respond world log url) as [resp|msg|msg]; cbn.
  - destruct (Z.eqb_spec (status_code resp) 200) as [H200|Hnot]; cbn.
    + destruct (json_body resp) as [v0|] eqn:Hbody; cbn.
      * eexists. split; [reflexivity|]. intros v. split.
        -- intros [= <-]. eauto.
        -- intros (resp' & [= <-] & _ & Hv). congruence.
      * eexists. split; [reflexivity|]. intros v. split; [discriminate|].
        intros (resp' & [= <-] & _ & Hv). congruence.
    + eexists. split; [reflexivity|]. intros v. split; [discriminate|].
      intros (resp' & [= <-] & H200 & _). contradiction.
  - eexists. split; [reflexivity|]. intros v.
    split; [discriminate | intros (resp' & Hr & _); discriminate].
  - eexists. split; [reflexivity|]. intros v.
    split; [discriminate | intros (resp' & Hr & _); discriminate].
Qed.

Lemma endswith_refl p : PyStr.endswith p p = true.
Proof. destruct p; cbn; [reflexivity|]. by rewrite Ascii.eqb_refl, String.eqb_refl. Qed.

Lemma endswith_app_r p s t :
  PyStr.endswith p t = true -> PyStr.endswith p (s +:+ t) = true.
Proof.
  intros Ht. induction s as [|c s IH]; [exact Ht|].
  change (String c s +:+ t) with (String c (s +:+ t)).
  change (PyStr.endswith p (String c (s +:+ t)))
    with (String.eqb p (String c (s +:+ t)) || PyStr.endswith p (s +:+ t))%bool.
  rewrite IH. apply orb_true_r.
Qed.

(** X3.  The root [normalize_root] returns always ends with a slash. *)
Theorem normalize_root_slash url root :
  normalize_root lib url = Ok root -> PyStr.endswith "/" root = true.
Proof.
  unfold normalize_root. destruct (urlparse lib url) as [[scheme host]|]; [|discriminate].
  intros [= <-]. do 3 apply endswith_app_r. reflexivity.
Qed.

(** X4.  [looks_like_shopify] raises only when the URL does not parse,
    and then before any request.  Otherwise it makes one request, for
    [/products.json?limit=1] at the root of the URL, and answers [True]
    exactly when the reply has status 200 and its body decodes to an
    object with a [products] key, whatever is under the key. *)
Theorem looks_like_shopify_spec url log :
  match normalize_root lib url with
  | Raise e => looks_like_shopify lib world url log = Some (Raise e, log)
  | Ok root =>
      exists b,
        looks_like_shopify lib world url log
          = Some (Ok b, log ++ [urljoin lib root "/products.json?limit=1"])
        /\ (b = true <->
            exists resp members,
              respond world log (urljoin lib root "/products.json?limit=1") = Replied resp
              /\ status_code resp = 200
              /\ json_body resp = Some (JObj members)
              /\ is_Some (Py.assoc "products" members))
  end.
Proof.
  unfold looks_like_shopify. rewrite bind_run. unfold lift.
  destruct (normalize_root lib url) as [root|e]; [|reflexivity].
  rewrite bind_run.
  destruct (fetch_json_ok_never_raises (urljoin lib root "/products.json?limit=1") log)
    as (o & -> & Ho).
  eexists. split; [reflexivity|]. split.
  - destruct o as [v|]; [|discriminate].
    destruct v as [| | | | | |members]; try discriminate. cbn.
    intros Hkey. apply bool_decide_eq_true in Hkey.
    destruct (proj1 (Ho _) eq_refl) as (resp & ? & ? & ?). eauto 10.
  - intros (resp & members & Hr & H200 & Hbody & Hkey).
    assert (o = Some (JObj members)) as -> by (apply Ho; eauto).
    cbn. by apply bool_decide_eq_true.
Qed.

End FetchProperties.


(* ===================================================================== *)
(** ** Further properties: text and names *)
(* ===================================================================== *)

Section TextProperties.

Context (lib : PyLib).

Lemma substring_length_le n : forall s, (String.length (String.substring 0 n s) <= n)%nat.
Proof.
  induction n as [|n IH]; intros [|c s]; cbn; try lia.
  specialize (IH s). lia.
Qed.

Lemma all_chars_app P s t :
  all_chars P (s +:+ t) = (all_chars P s && all_chars P t)%bool.
Proof.
  induction s as [|c s IH]; [reflexivity|].
  change (all_chars P (String c s +:+ t)) with (P c && all_chars P (s +:+ t))%bool.
  rewrite IH. cbn [all_chars]. by rewrite andb_assoc.
Qed.

Lemma split_from_words s : forall word,
  all_chars (fun c => negb (PyStr.is_space c)) word = true ->
  Forall is_word (PyStr.split_from word s).
Proof.
  induction s as [|c s IH]; intros word Hword; cbn.
  - destruct word; [constructor|]. constructor; [|constructor]. split; [discriminate|exact Hword].
  - destruct (PyStr.is_space c) eqn:Hc.
    + destruct word as [|d word]; cbn.
      * by apply IH.
      * constructor; [split; [discriminate|exact Hword]|]. by apply IH.
    + apply IH. rewrite all_chars_app, Hword. cbn. by rewrite Hc.
Qed.

Lemma spaced_word w : forall b t,
  all_chars (fun c => negb (PyStr.is_space c)) w = true ->
  spaced b (w +:+ t) = if PyStr.is_empty w then spaced b t else spaced false t.
Proof.
  induction w as [|c w IH]; intros b t Hw; [reflexivity|].
  cbn in Hw. apply andb_true_iff in Hw as [Hc Hw]. apply negb_true_iff in Hc.
  change (String c w +:+ t) with (String c (w +:+ t)).
  cbn [spaced PyStr.is_empty]. rewrite Hc, (IH false t Hw).
  by destruct w.
Qed.

Lemma append_empty_r s : s +:+ EmptyString = s.
Proof.
  induction s as [|c s IH]; [reflexivity|].
  change (String c s +:+ EmptyString) with (String c (s +:+ EmptyString)).
  by rewrite IH.
Qed.

Lemma spaced_join ws : forall b,
  Forall is_word ws -> spaced b (PyStr.join " " ws) = true.
Proof.
  induction ws as [|w ws IH]; intros b Hws; [reflexivity|].
  apply Forall_cons in Hws as [[Hne Hw] Hws].
  destruct ws as [|w' ws].
  - cbn [PyStr.join]. rewrite <- (append_empty_r w) at 1.
    rewrite (spaced_word w b EmptyString Hw). by destruct w.
  - change (PyStr.join " " (w :: w' :: ws))
      with (w +:+ " " +:+ PyStr.join " " (w' :: ws)).
    rewrite (spaced_word w b _ Hw). destruct w; [contradiction|].
    cbn [PyStr.is_empty]. change (" " +:+ PyStr.join " " (w' :: ws))
      with (String " " (PyStr.join " " (w' :: ws))).
    cbn [spaced]. change (PyStr.is_space " ") with true. cbn.
    by apply IH.
Qed.

Lemma spaced_prefix n : forall b s,
  spaced b s = true -> spaced b (String.substring 0 n s) = true.
Proof.
  induction n as [|n IH]; intros b [|c s] H; cbn; try reflexivity.
  cbn in H. destruct (PyStr.is_space c).
  - apply andb_true_iff in H as [H1 H2]. rewrite H1. cbn. by apply IH.
  - by apply IH.
Qed.

(** X5.  An excerpt is never longer than the bound it is asked for, and
    its white space is made of single blanks: no white-space character
    other than a blank, none at the start, no two in a row. *)
Theorem text_excerpt_normal s n :
  (String.length (text_excerpt s n) <= n)%nat
  /\ spaced true (text_excerpt s n) = true.
Proof.
  unfold text_excerpt, PyStr.take. split.
  - apply substring_length_le.
  - apply spaced_prefix, spaced_join. by apply split_from_words.
Qed.

(** *** [strip] *)

Lemma rstrip_idem s : PyStr.rstrip (PyStr.rstrip s) = PyStr.rstrip s.
Proof.
  induction s as [|c s IH]; [reflexivity|]. cbn [PyStr.rstrip].
  destruct (PyStr.is_space c && PyStr.is_empty (PyStr.rstrip s))%bool eqn:H;
    [reflexivity|].
  cbn [PyStr.rstrip]. by rewrite IH, H.
Qed.

Lemma lstrip_head s :
  PyStr.lstrip s = EmptyString
  \/ exists c t, PyStr.lstrip s = String c t /\ PyStr.is_space c = false.
Proof.
  induction s as [|c s IH]; cbn; [by left|].
  destruct (PyStr.is_space c) eqn:Hc; [exact IH | right; eauto].
Qed.

Lemma rstrip_cons c t :
  PyStr.is_space c = false -> PyStr.rstrip (String c t) = String c (PyStr.rstrip t).
Proof. intros Hc. cbn [PyStr.rstrip]. by rewrite Hc. Qed.

Lemma lstrip_cons c t :
  PyStr.is_space c = false -> PyStr.lstrip (String c t) = String c t.
Proof. intros Hc. cbn [PyStr.lstrip]. by rewrite Hc. Qed.

Lemma strip_idem s : PyStr.strip (PyStr.strip s) = PyStr.strip s.
Proof.
  unfold PyStr.strip. destruct (lstrip_head s) as [->|(c & t & -> & Hc)]; [reflexivity|].
  rewrite (rstrip_cons c t Hc), (lstrip_cons c _ Hc), (rstrip_cons c _ Hc).
  by rewrite rstrip_idem.
Qed.

Lemma all_chars_lstrip P s : all_chars P s = true -> all_chars P (PyStr.lstrip s) = true.
Proof.
  induction s as [|c s IH]; cbn; [done|]. intros H.
  destruct (PyStr.is_space c); [|exact H].
  apply andb_true_iff in H as [_ H]. by apply IH.
Qed.

Lemma all_chars_rstrip P s : all_chars P s = true -> all_chars P (PyStr.rstrip s) = true.
Proof.
  induction s as [|c s IH]; cbn; [done|]. intros H.
  apply andb_true_iff in H as [Hc H].
  destruct (PyStr.is_space c && PyStr.is_empty (PyStr.rstrip s))%bool; [reflexivity|].
  cbn. by rewrite Hc, IH.
Qed.

Lemma all_chars_before sep s :
  all_chars (fun c => negb (Ascii.eqb c sep)) (PyStr.before sep s) = true.
Proof.
  induction s as [|c s IH]; cbn; [reflexivity|].
  destruct (Ascii.eqb c sep) eqn:Hc; cbn; [reflexivity|]. by rewrite Hc, IH.
Qed.

Lemma contains_char_false c s :
  all_chars (fun x => negb (Ascii.eqb x c)) s = true ->
  PyStr.contains (String c EmptyString) s = false.
Proof.
  induction s as [|x s IH]; [reflexivity|]. intros H. cbn [all_chars] in H.
  apply andb_true_iff in H as [Hx H]. apply negb_true_iff in Hx.
  cbn [PyStr.contains String.prefix].
  destruct (ascii_dec c x) as [->|_]; [by rewrite Ascii.eqb_refl in Hx|].
  cbn [orb]. by apply IH.
Qed.

(** X6.  A brand name, when there is one, is stripped; when the document
    has a title that is not empty the name is taken from it and holds no
    ["|"], and the site-name tag is not looked at. *)
Theorem scrape_brand_name_clean soup name :
  scrape_brand_name soup = Some name ->
  PyStr.strip name = name
  /\ forall doc, soup = Some doc -> PyStr.truthy (title_text doc) = true ->
       PyStr.contains "|" name = false
       /\ scrape_brand_name (Some {| title_text := title_text doc;
                                     og_site_name := None;
                                     anchors := anchors doc; ld_json := ld_json doc;
                                     details := details doc;
                                     page_text := page_text doc |}) = Some name.
Proof.
  destruct soup as [doc|]; [|discriminate]. cbn.
  destruct (PyStr.truthy (title_text doc)) eqn:Ht.
  - intros [= <-]. split; [apply strip_idem|].
    intros doc' [= <-] _. split; [|cbn; by rewrite Ht].
    apply contains_char_false. unfold PyStr.strip.
    apply all_chars_rstrip, all_chars_lstrip, all_chars_before.
  - destruct (og_site_name doc) as [content|]; [|discriminate].
    destruct (PyStr.truthy content); [|discriminate].
    intros [= <-]. split; [apply strip_idem|].
    intros doc' [= <-] Ht'. congruence.
Qed.

Lemma hero_title_stripped a : PyStr.strip (hero_title a) = hero_title a.
Proof.
  unfold hero_title.
  destruct (PyStr.is_empty _); [|apply strip_idem].
  destruct (a_img a) as [alt|]; [|apply strip_idem].
  destruct (PyStr.truthy alt); apply strip_idem.
Qed.

Lemma hero_loop_fields (P : Product -> Prop) base l :
  (forall a href, a ∈ l -> hero_title a <> EmptyString -> urljoin lib base href <> EmptyString ->
     P (hero_product (hero_title a) (urljoin lib base href))) ->
  forall seen out, Forall P out -> Forall P (hero_loop lib base l seen out).
Proof.
  induction l as [|a rest IH]; intros HP seen out Hout; cbn [hero_loop]; [exact Hout|].
  assert (Hrest : forall a' href, a' ∈ rest -> hero_title a' <> EmptyString ->
            urljoin lib base href <> EmptyString ->
            P (hero_product (hero_title a') (urljoin lib base href))).
  { intros a' href Ha'. apply HP. by right. }
  unfold absolutize. destruct (a_href a) as [h|]; [|by apply IH].
  destruct (PyStr.is_empty h); [by apply IH|].
  destruct (PyStr.is_empty (urljoin lib base h)) eqn:Hurl; cbn [orb]; [by apply IH|].
  destruct (bool_decide _); [by apply IH|].
  apply is_empty_false in Hurl.
  destruct (PyStr.is_empty (hero_title a)) eqn:Htitle.
  - destruct (Z.leb _ _); [exact Hout | by apply IH].
  - apply is_empty_false in Htitle.
    assert (Forall P (out ++ [hero_product (hero_title a) (urljoin lib base h)])).
    { apply Forall_app. split; [exact Hout|]. constructor; [|constructor].
      apply HP; auto. by left. }
    destruct (Z.leb _ _); [assumption | by apply IH].
Qed.

(** X7.  A hero product always has a URL, which is not empty, and a
    title, which is stripped and not empty; it never has a price or an
    image. *)
Theorem hero_products_fields base soup :
  Forall (fun p =>
            (exists u, product_url p = Some u /\ u <> EmptyString)
            /\ product_title p <> EmptyString
            /\ PyStr.strip (product_title p) = product_title p
            /\ product_price p = None
            /\ product_image p = None)
         (scrape_hero_products lib base soup).
Proof.
  destruct soup as [doc|]; [|constructor]. cbn.
  apply hero_loop_fields; [|constructor].
  intros a href _ Htitle Hurl. cbn. repeat split; eauto.
  apply hero_title_stripped.
Qed.

End TextProperties.

(** The root of a product page. *)
Lemma normalize_root_slash_witness :
  PyStr.endswith "/" "https://a.com/" = true.
Proof.
  exact (normalize_root_slash Sample.lib "https://a.com/products/mug?x=1"
           "https://a.com/" eq_refl).
Defined.

(** The brand of the sample shop. *)
Lemma scrape_brand_name_clean_witness :
  PyStr.strip "Acme" = "Acme"
  /\ PyStr.contains "|" "Acme" = false.
Proof.
  destruct (scrape_brand_name_clean (Some Storefront.home) "Acme" eq_refl) as [Hs H].
  split; [exact Hs|]. exact (proj1 (H _ eq_refl eq_refl)).
Defined.


(* ===================================================================== *)
(** ** Further properties: catalog and policies *)
(* ===================================================================== *)

Section MoreCatalogProperties.

Context (lib : PyLib) (world : World).

Lemma catalog_loop_cases base fuel : forall page products log,
  catalog_loop lib world fuel base page products log = None
  \/ exists n, (1 <= n <= fuel)%nat
       /\ catalog_loop lib world fuel base page products log
            = Some (Ok (catalog_after lib world n base page products log),
                    log ++ page_urls lib base page n).
Proof.
  induction fuel as [|fuel IH]; intros page products log; [by left|].
  cbn [catalog_loop]. rewrite bind_run.
  destruct (catalog_page_total lib world base page products log) as ([ps|ps] & Hstep & _);
    rewrite Hstep.
  - destruct (IH (page + 1) ps (log ++ [page_url lib base page])) as [Hnone|(n & Hn & Hrun)].
    + left. exact Hnone.
    + right. exists (S n). split; [lia|]. rewrite Hrun.
      cbn [catalog_after page_urls]. rewrite Hstep, <- app_assoc. reflexivity.
  - right. exists 1%nat. split; [lia|]. cbn [catalog_after page_urls].
    rewrite Hstep. reflexivity.
Qed.

(** X8.  [scrape_catalog] never raises, whatever the server does: a run
    either goes on for ever or returns a list, after [n >= 1] requests
    that are those of the pages 1, ..., [n] in this order. *)
Theorem scrape_catalog_never_raises fuel base log :
  scrape_catalog lib world fuel base log = None
  \/ exists n, (1 <= n <= fuel)%nat
       /\ scrape_catalog lib world fuel base log
            = Some (Ok (catalog_after lib world n base 1 [] log),
                    log ++ page_urls lib base 1 n).
Proof. apply catalog_loop_cases. Qed.

Lemma catalog_items_app base good ps : forall products rest,
  Forall2 (fun it p => catalog_item lib base it = Ok p) good ps ->
  catalog_items lib base (good ++ rest) products
    = catalog_items lib base rest (products ++ ps).
Proof.
  intros products rest H. revert products.
  induction H as [|it p good ps Hit Hgood IH]; intros products; cbn [app catalog_items].
  - by rewrite app_nil_r.
  - rewrite Hit, IH, <- app_assoc. reflexivity.
Qed.

(** X9.  An item that cannot be processed ends the whole scrape: when a
    page comes back with status 200 and a list of items of which one
    raises, the products of the items before it are kept, and neither the
    items after it nor any further page are looked at. *)
Theorem catalog_bad_item_stops base page products log resp data good bad rest ps e fuel :
  respond world log (page_url lib base page) = Replied resp ->
  status_code resp = 200 ->
  json_body resp = Some data ->
  Py.get_default data "products" (JArr []) = Ok (JArr (good ++ bad :: rest)) ->
  Forall2 (fun it p => catalog_item lib base it = Ok p) good ps ->
  catalog_item lib base bad = Raise e ->
  catalog_loop lib world (S fuel) base page products log
    = Some (Ok (products ++ ps), log ++ [page_url lib base page]).
Proof.
  intros Hr H200 Hdata Hitems Hgood Hbad.
  cbn [catalog_loop]. rewrite bind_run.
  rewrite (catalog_page_items lib world base page products log resp data
             (JArr (good ++ bad :: rest)) (good ++ bad :: rest)); auto.
  - rewrite (catalog_items_app base good ps products (bad :: rest) Hgood).
    cbn [catalog_items]. rewrite Hbad. reflexivity.
  - by destruct good.
Qed.

(** *** Policies *)

Lemma policies_loop_spec base paths : forall out log ps log',
  policies_loop lib world base paths out log = Some (Ok ps, log') ->
  log' = probed_policies lib base paths (length paths) log
  /\ exists new,
       ps = out ++ new
       /\ (policy_type <$> new) `sublist_of` (paths.*1)
       /\ (forall i ptype path,
             paths !! i = Some (ptype, path) ->
             resolves lib world base path (probed_policies lib base paths i log) ->
             exists p, p ∈ new /\ policy_type p = ptype)
       /\ Forall (fun p =>
                    exists i ptype path doc l,
                      paths !! i = Some (ptype, path)
                      /\ fetch_html lib world base path
                           (probed_policies lib base paths i log)
                           = Some (Ok (Some doc), l)
                      /\ p = {| policy_type := ptype;
                                policy_url := Some (urljoin lib base path);
                                policy_text_excerpt :=
                                  Some (text_excerpt (page_text doc) 800) |}) new.
Proof.
  unfold probed_policies, probed.
  induction paths as [|[ptype path] rest IH]; intros out log ps log' H.
  - injection H as <- <-. split; [cbn; by rewrite app_nil_r|].
    exists []. rewrite app_nil_r. repeat split; auto; try constructor.
    intros i t p Hp. discriminate.
  - cbn [policies_loop] in H. bind_ok H.
    pose proof (fetch_html_Ok _ _ _ _ _ _ _ H0) as ->.
    pose proof (resolves_fetch _ _ _ _ _ _ _ H0) as Hres0.
    assert (Hshift : forall k,
               log ++ (urljoin lib base <$> take (S k) ((ptype, path) :: rest).*2)
               = (log ++ [urljoin lib base path]) ++ (urljoin lib base <$> take k (rest.*2))).
    { intros k. cbn. by rewrite cons_middle, app_assoc. }
    destruct a as [doc|].
    + apply IH in H as (-> & new & -> & Hsub & Hall & Hfrom).
      split; [cbn [length]; by rewrite Hshift|].
      set (p0 := {| policy_type := ptype; policy_url := Some (urljoin lib base path);
                    policy_text_excerpt := Some (text_excerpt (page_text doc) 800) |}).
      exists (p0 :: new). split; [by rewrite <- app_assoc|]. split; [|split].
      * cbn. by apply sublist_skip.
      * intros [|i] t q Hq Hres.
        -- injection Hq as <- <-. exists p0. split; [by left | reflexivity].
        -- rewrite Hshift in Hres. destruct (Hall i t q Hq Hres) as (p & Hp & Ht).
           exists p. split; [by right | exact Ht].
      * constructor.
        -- exists O, ptype, path, doc, (log ++ [urljoin lib base path]).
           cbn. rewrite app_nil_r. auto.
        -- eapply Forall_impl; [exact Hfrom|]. cbn.
           intros p (i & t & q & d & l & Hq & Hf & Hp).
           exists (S i), t, q, d, l. rewrite Hshift. auto.
    + apply IH in H as (-> & new & -> & Hsub & Hall & Hfrom).
      split; [cbn [length]; by rewrite Hshift|].
      exists new. split; [reflexivity|]. split; [|split].
      * cbn. by apply sublist_cons.
      * intros [|i] t q Hq Hres.
        -- injection Hq as <- <-. cbn in Hres. rewrite app_nil_r in Hres.
           apply Hres0 in Hres as [d Hd]. discriminate.
        -- rewrite Hshift in Hres. exact (Hall i t q Hq Hres).
      * eapply Forall_impl; [exact Hfrom|]. cbn.
        intros p (i & t & q & d & l & Hq & Hf & Hp).
        exists (S i), t, q, d, l. rewrite Hshift. auto.
Qed.

Lemma policies_loop_returns base paths : forall out log,
  exists r log', policies_loop lib world base paths out log = Some (r, log').
Proof.
  induction paths as [|[ptype path] rest IH]; intros out log; cbn [policies_loop].
  - eexists _, _. reflexivity.
  - rewrite bind_run. destruct (fetch_html_log lib world base path log) as [r ->].
    destruct r as [[doc|]|e]; [apply IH | apply IH | eauto].
Qed.

(** X10.  A run of [scrape_policies] always ends and probes the five
    policy paths, all of them, in order.  The policies it returns are in
    the order privacy, refund, return, shipping, terms, at most one of
    each type; a path that resolves gives a policy of its type; and every
    policy carries the type and the URL of a path that resolved, with an
    excerpt of that page's text of at most 800 characters. *)
Theorem scrape_policies_spec base log :
  exists r log',
    scrape_policies lib world base log = Some (r, log')
    /\ forall ps, r = Ok ps ->
         log' = probed_policies lib base POLICY_PATHS 5 log
         /\ (policy_type <$> ps)
              `sublist_of` ["privacy"; "refund"; "return"; "shipping"; "terms"]
         /\ (forall i ptype path,
               POLICY_PATHS !! i = Some (ptype, path) ->
               resolves lib world base path (probed_policies lib base POLICY_PATHS i log) ->
               exists p, p ∈ ps /\ policy_type p = ptype)
         /\ Forall (fun p =>
                      exists i ptype path doc l text,
                        POLICY_PATHS !! i = Some (ptype, path)
                        /\ fetch_html lib world base path
                             (probed_policies lib base POLICY_PATHS i log)
                             = Some (Ok (Some doc), l)
                        /\ policy_type p = ptype
                        /\ policy_url p = Some (urljoin lib base path)
                        /\ policy_text_excerpt p = Some text
                        /\ text = text_excerpt (page_text doc) 800
                        /\ (String.length text <= 800)%nat) ps.
Proof.
  destruct (policies_loop_returns base POLICY_PATHS [] log) as (r & log' & Hrun).
  exists r, log'. split; [exact Hrun|]. intros ps ->.
  apply policies_loop_spec in Hrun as (Hlog & new & -> & Hsub & Hall & Hfrom).
  cbn [app]. split; [exact Hlog|]. split; [exact Hsub|]. split; [exact Hall|].
  eapply Forall_impl; [exact Hfrom|]. cbn.
  intros p (i & t & q & d & l & Hq & Hf & ->).
  exists i, t, q, d, l, (text_excerpt (page_text d) 800). cbn.
  repeat split; auto. apply substring_length_le.
Qed.

End MoreCatalogProperties.


(* ===================================================================== *)
(** ** Further properties: about, social links, contact, FAQs *)
(* ===================================================================== *)

Section MoreProbeProperties.

Context (lib : PyLib) (world : World).

(** *** About *)

Lemma about_loop_spec base paths : forall log o log',
  about_loop lib world base paths log = Some (Ok o, log') ->
  (o = None /\ log' = probed lib base paths (length paths) log
   /\ forall i path, paths !! i = Some path ->
        ~ resolves lib world base path (probed lib base paths i log))
  \/ (exists i path doc l,
        paths !! i = Some path
        /\ log' = probed lib base paths (S i) log
        /\ (forall j p, (j < i)%nat -> paths !! j = Some p ->
              ~ resolves lib world base p (probed lib base paths j log))
        /\ fetch_html lib world base path (probed lib base paths i log)
             = Some (Ok (Some doc), l)
        /\ o = Some (text_excerpt (page_text doc) 1200)).
Proof.
  unfold probed.
  induction paths as [|path rest IH]; intros log o log' H.
  - injection H as <- <-. left. rewrite app_nil_r. repeat split; auto.
    intros i p Hp. discriminate.
  - cbn [about_loop] in H. bind_ok H.
    pose proof (fetch_html_Ok _ _ _ _ _ _ _ H0) as ->.
    pose proof (resolves_fetch _ _ _ _ _ _ _ H0) as Hres0.
    assert (Hshift : forall k, log ++ (urljoin lib base <$> take (S k) (path :: rest))
              = (log ++ [urljoin lib base path]) ++ (urljoin lib base <$> take k rest)).
    { intros k. cbn. by rewrite cons_middle, app_assoc. }
    destruct a as [doc|].
    + injection H as <- <-. right.
      exists O, path, doc, (log ++ [urljoin lib base path]). cbn. rewrite app_nil_r.
      repeat split; auto. intros j p Hj. lia.
    + assert (Hnot : ~ resolves lib world base path log).
      { intros Hres. apply Hres0 in Hres as [d Hd]. discriminate. }
      apply IH in H as [(-> & -> & Hall)|(i & p & doc & l & Hp & -> & Hbefore & Hf & ->)].
      * left. split; [reflexivity|]. split; [cbn [length]; by rewrite Hshift|].
        intros [|i] p Hp.
        -- injection Hp as <-. cbn. by rewrite app_nil_r.
        -- rewrite Hshift. by apply Hall.
      * right. exists (S i), p, doc, l.
        split; [exact Hp|]. split; [by rewrite (Hshift (S i))|].
        split; [|split; [by rewrite Hshift | reflexivity]].
        intros [|j] q Hj Hq.
        -- injection Hq as <-. cbn. by rewrite app_nil_r.
        -- rewrite Hshift. apply Hbefore; [lia | exact Hq].
Qed.

Lemma about_loop_returns base paths : forall log,
  exists r log', about_loop lib world base paths log = Some (r, log').
Proof.
  induction paths as [|path rest IH]; intros log; cbn [about_loop].
  - eexists _, _. reflexivity.
  - rewrite bind_run. destruct (fetch_html_log lib world base path log) as [r ->].
    destruct r as [[doc|]|e]; [eexists _, _; reflexivity | apply IH | eauto].
Qed.

(** X11.  A run of [scrape_about] always ends.  It returns an excerpt, of
    at most 1200 characters, of the text of the first of its three paths
    that resolves, and asks for no path after that one; it returns [None]
    exactly when it probed all three and none resolved. *)
Theorem scrape_about_spec base log :
  exists r log',
    scrape_about lib world base log = Some (r, log')
    /\ forall o, r = Ok o ->
         (o = None /\ log' = probed lib base ABOUT_PATHS 3 log
          /\ forall i path, ABOUT_PATHS !! i = Some path ->
               ~ resolves lib world base path (probed lib base ABOUT_PATHS i log))
         \/ (exists i path doc l text,
               ABOUT_PATHS !! i = Some path
               /\ log' = probed lib base ABOUT_PATHS (S i) log
               /\ (forall j p, (j < i)%nat -> ABOUT_PATHS !! j = Some p ->
                     ~ resolves lib world base p (probed lib base ABOUT_PATHS j log))
               /\ fetch_html lib world base path (probed lib base ABOUT_PATHS i log)
                    = Some (Ok (Some doc), l)
               /\ o = Some text
               /\ text = text_excerpt (page_text doc) 1200
               /\ (String.length text <= 1200)%nat).
Proof.
  destruct (about_loop_returns base ABOUT_PATHS log) as (r & log' & Hrun).
  exists r, log'. split; [exact Hrun|]. intros o ->.
  apply about_loop_spec in Hrun as [H|(i & p & doc & l & ? & ? & ? & ? & ?)]; [by left|].
  right. exists i, p, doc, l, (text_excerpt (page_text doc) 1200).
  repeat split; auto. apply substring_length_le.
Qed.

(** *** Social links *)

Lemma classify_social_platform href key :
  classify_social lib href = Ok (Some key) -> key ∈ PLATFORMS.
Proof.
  unfold classify_social. destruct (netloc lib href) as [host|]; [|discriminate].
  unfold mbind, result_bind.
  destruct (find (fun dk => PyStr.contains (fst dk) (PyStr.lower host)) SOCIAL_MAP)
    as [[dom k]|] eqn:Hfind; [|discriminate].
  intros Hk. assert (k = key) as <- by (cbn in Hk; congruence). clear Hk.
  apply find_some in Hfind as [Hin _].
  assert (Hk : In k (snd <$> SOCIAL_MAP)).
  { apply in_map_iff. exists (dom, k). auto. }
  apply list_elem_of_In. clear Hin. cbn in Hk. unfold PLATFORMS.
  repeat (destruct Hk as [<-|Hk]; [by repeat constructor|]). contradiction.
Qed.

Lemma social_loop_spec hrefs : forall out m,
  social_loop lib hrefs out = Ok m ->
  (forall k v, out !! k = Some v -> m !! k = Some v)
  /\ (forall k v, m !! k = Some v ->
        out !! k = Some v
        \/ (out !! k = None
            /\ exists pre href post,
                 hrefs = pre ++ href :: post
                 /\ v = Some href
                 /\ classify_social lib href = Ok (Some k)
                 /\ Forall (fun h => classify_social lib h <> Ok (Some k)) pre))
  /\ (forall href k, href ∈ hrefs -> classify_social lib href = Ok (Some k) ->
        is_Some (m !! k)).
Proof.
  induction hrefs as [|href rest IH]; intros out m H.
  - injection H as <-. split; [auto|]. split; [auto|].
    intros href k Hin. by apply elem_of_nil in Hin.
  - cbn [social_loop] in H.
    destruct (classify_social lib href) as [key|e] eqn:Hkey; [|discriminate]. cbn in H.
    assert (Hskip : forall out',
               social_loop lib rest out' = Ok m ->
               out' = out ->
               (forall k, classify_social lib href = Ok (Some k) -> is_Some (out !! k)) ->
               (forall k v, out !! k = Some v -> m !! k = Some v)
               /\ (forall k v, m !! k = Some v ->
                     out !! k = Some v
                     \/ (out !! k = None
                         /\ exists pre h post,
                              href :: rest = pre ++ h :: post
                              /\ v = Some h
                              /\ classify_social lib h = Ok (Some k)
                              /\ Forall (fun x => classify_social lib x <> Ok (Some k)) pre))
               /\ (forall h k, h ∈ href :: rest -> classify_social lib h = Ok (Some k) ->
                     is_Some (m !! k))).
    { intros out' Hrun -> Hknown. apply IH in Hrun as (Hkeep & Hnew & Hall).
      split; [exact Hkeep|]. split.
      - intros k v Hm. destruct (Hnew k v Hm) as [Ho|(Ho & pre & h & post & -> & -> & Hc & Hpre)];
          [by left|right].
        split; [exact Ho|]. exists (href :: pre), h, post. repeat split; auto.
        constructor; [|exact Hpre]. intros Hk.
        destruct (Hknown k Hk) as [x Hx]. congruence.
      - intros h k Hin Hc. apply elem_of_cons in Hin as [->|Hin]; [|by eapply Hall].
        destruct (Hknown k Hc) as [x Hx]. rewrite (Hkeep k x Hx). eauto. }
    destruct key as [key|].
    + case_bool_decide as Hin.
      * apply (Hskip out H eq_refl). intros k Hk. rewrite Hkey in Hk.
        injection Hk as <-. exact Hin.
      * assert (Hnone : out !! key = None).
        { destruct (out !! key) eqn:Ho; [|reflexivity]. exfalso. apply Hin. eauto. }
        apply IH in H as (Hkeep & Hnew & Hall). split; [|split].
        -- intros k v Ho. apply Hkeep. rewrite lookup_insert_ne; [exact Ho|].
           intros ->. congruence.
        -- intros k v Hm. destruct (decide (key = k)) as [->|Hne].
           ++ right. split; [exact Hnone|]. exists [], href, rest.
              rewrite (Hkeep k (Some href)) in Hm by apply lookup_insert_eq.
              injection Hm as <-. repeat split; auto.
           ++ destruct (Hnew k v Hm) as [Ho|(Ho & pre & h & post & -> & -> & Hc & Hpre)].
              ** left. by rewrite lookup_insert_ne in Ho.
              ** right. rewrite lookup_insert_ne in Ho by done. split; [exact Ho|].
                 exists (href :: pre), h, post. repeat split; auto.
                 constructor; [|exact Hpre]. rewrite Hkey. congruence.
        -- intros h k Hh Hc. apply elem_of_cons in Hh as [->|Hh]; [|by eapply Hall].
           rewrite Hkey in Hc. injection Hc as <-.
           rewrite (Hkeep key (Some href)) by apply lookup_insert_eq. eauto.
    + apply (Hskip out H eq_refl). intros k Hk. rewrite Hkey in Hk. discriminate.
Qed.

(** X12.  In the mapping [scrape_social] returns, every key is one of the
    seven platform names and its value is the [href] of the first anchor,
    in document order, that classifies to that platform; every platform
    some anchor classifies to has an entry; and without a home page the
    mapping is empty. *)
Theorem scrape_social_spec soup m :
  scrape_social lib soup = Ok m ->
  (soup = None -> m = ∅)
  /\ (forall k v, m !! k = Some v ->
        k ∈ PLATFORMS
        /\ exists doc pre href post,
             soup = Some doc
             /\ omap a_href (anchors doc) = pre ++ href :: post
             /\ v = Some href
             /\ classify_social lib href = Ok (Some k)
             /\ Forall (fun h => classify_social lib h <> Ok (Some k)) pre)
  /\ (forall doc a href k,
        soup = Some doc -> a ∈ anchors doc -> a_href a = Some href ->
        classify_social lib href = Ok (Some k) -> is_Some (m !! k)).
Proof.
  destruct soup as [doc|]; cbn.
  - intros H. apply social_loop_spec in H as (_ & Hnew & Hall).
    split; [discriminate|]. split.
    + intros k v Hm.
      destruct (Hnew k v Hm) as [Ho|(_ & pre & href & post & Heq & -> & Hc & Hpre)].
      { by rewrite lookup_empty in Ho. }
      split; [by eapply classify_social_platform|].
      exists doc, pre, href, post. auto.
    + intros doc' a href k [= <-] Ha Hhref Hc. apply (Hall href k); [|exact Hc].
      apply list_elem_of_omap. eauto.
  - intros [= <-]. split; [reflexivity|]. split.
    + intros k v Hm. by rewrite lookup_empty in Hm.
    + intros doc a href k Hdoc. discriminate.
Qed.

End MoreProbeProperties.
